(** * A shallow embedding of the ad-generation pipeline of river_adgen

    The development follows [src/app.py] (the batch pipeline) and
    [src/streamlit_app.py] (the interactive front end).  Python strings
    are modelled as Rocq [string]s whose characters are the code points
    0..255; the model API, the file system and the widgets of the front
    end are inputs of the definitions (responses, directory listings,
    widget answers), so that every definition below computes. *)

From Stdlib Require Import String Ascii List Bool NArith ZArith Lia Relation_Operators.
From Stdlib Require Import Init.Byte Wellfounded Permutation.
Import ListNotations.
Open Scope string_scope.

(* ------------------------------------------------------------------ *)
(** ** Python text primitives *)

Module Text.

(** [str.isspace] on the code points 0..255. *)
Definition py_isspace (c : ascii) : bool :=
  let n := N_of_ascii c in
  ((9 <=? n)%N && (n <=? 13)%N) || ((28 <=? n)%N && (n <=? 32)%N)
  || (n =? 133)%N || (n =? 160)%N.

(** [s[k:]] *)
Fixpoint drop (k : nat) (s : string) : string :=
  match k, s with
  | O, _ => s
  | S _, EmptyString => EmptyString
  | S k', String _ s' => drop k' s'
  end.

(** Length of the run of whitespace that starts [s]. *)
Fixpoint ws_run (s : string) : nat :=
  match s with
  | String c s' => if py_isspace c then S (ws_run s') else O
  | EmptyString => O
  end.

Fixpoint lstrip (s : string) : string :=
  match s with
  | String c s' => if py_isspace c then lstrip s' else s
  | EmptyString => EmptyString
  end.

Fixpoint rstrip (s : string) : string :=
  match s with
  | EmptyString => EmptyString
  | String c s' =>
      match rstrip s' with
      | EmptyString => if py_isspace c then EmptyString else String c EmptyString
      | r => String c r
      end
  end.

(** [str.strip()] *)
Definition py_strip (s : string) : string := rstrip (lstrip s).

(** [str.lower()] on the code points 0..255 (ASCII and Latin-1 capitals). *)
Definition py_lower_char (c : ascii) : ascii :=
  let n := N_of_ascii c in
  if ((65 <=? n)%N && (n <=? 90)%N)
     || ((192 <=? n)%N && (n <=? 222)%N && negb (n =? 215)%N)
  then ascii_of_N (n + 32) else c.

Fixpoint py_lower (s : string) : string :=
  match s with
  | EmptyString => EmptyString
  | String c s' => String (py_lower_char c) (py_lower s')
  end.

Definition nl : string := String (ascii_of_nat 10) EmptyString.
Definition dq : string := String (ascii_of_nat 34) EmptyString.

End Text.
Import Text.

(* ------------------------------------------------------------------ *)
(** ** [extract_x] (app.py, lines 16-19)

<<
def extract_x(response: str, code_type: str) -> str:
    pattern = rf"```{code_type}\s*(.*?)```"
    match = re.search(pattern, response, re.DOTALL)
    return match.group(1).strip() if match else response
>>

    The regular expression is run the way [re] runs it: [re.search]
    tries the start positions from left to right; at a start position
    the literal opening [```code_type] must follow, then the greedy
    [\s*] takes the longest whitespace run and gives characters back
    one by one on failure, and for each choice the lazy [(.*?)] (DOTALL:
    any character) takes the shortest text followed by [```].  The tag
    is spliced into the pattern; the model reads it as literal text,
    which is its meaning for a tag without regex metacharacters
    ([regex_literal]), as the tag ["json"] of the program. *)

Module Extract.

Definition fence : string := "```".

(** [(.*?)```] on [t]: the shortest prefix of [t] followed by [```]. *)
Fixpoint lazy_body (t : string) : option string :=
  if prefix fence t then Some EmptyString
  else match t with
       | EmptyString => None
       | String c t' => option_map (String c) (lazy_body t')
       end.

(** [\s*] having taken [k] whitespace characters, with backtracking. *)
Fixpoint try_ws (k : nat) (t : string) : option string :=
  match lazy_body (drop k t) with
  | Some g => Some g
  | None => match k with O => None | S k' => try_ws k' t end
  end.

(** The pattern anchored at the start of [s]; [Some group1] on a match. *)
Definition match_at (opening s : string) : option string :=
  if prefix opening s
  then let t := drop (String.length opening) s in try_ws (ws_run t) t
  else None.

(** [re.search]: the leftmost start position that matches. *)
Fixpoint search (opening s : string) : option string :=
  match match_at opening s with
  | Some g => Some g
  | None => match s with
            | EmptyString => None
            | String _ s' => search opening s'
            end
  end.

Definition extract_x (response code_type : string) : string :=
  match search (fence ++ code_type) response with
  | Some g => py_strip g
  | None => response
  end.

(** The characters that are special in a Python regular expression. *)
Definition regex_meta (c : ascii) : bool :=
  existsb (Ascii.eqb c) (list_ascii_of_string ".^$*+?{}[]\|()").

Definition regex_literal (tag : string) : bool :=
  forallb (fun c => negb (regex_meta c)) (list_ascii_of_string tag).

(** Does [```] occur in [s]? *)
Fixpoint contains (pat s : string) : bool :=
  prefix pat s || match s with
                  | EmptyString => false
                  | String _ s' => contains pat s'
                  end.

(** No occurrence of [pat] starts inside [pre] in the text [pre ++ t]. *)
Fixpoint nowhere_before (pat pre t : string) : Prop :=
  match pre with
  | EmptyString => True
  | String c pre' => prefix pat (String c pre' ++ t) = false
                     /\ nowhere_before pat pre' t
  end.

(** A fenced block of language [tag] in the reading of the claims: an
    opening [```tag] ended by whitespace, closed by a later [```]. *)
Fixpoint has_fenced_block (s tag : string) : bool :=
  (prefix (fence ++ tag) s
   && match drop (String.length (fence ++ tag)) s with
      | String c t => py_isspace c && contains fence t
      | EmptyString => false
      end)
  || match s with
     | EmptyString => false
     | String _ s' => has_fenced_block s' tag
     end.

End Extract.

(* ------------------------------------------------------------------ *)
(** ** [json.loads] (CPython's [json] package, strict mode)

    [flow] and the front end decode the extractor's output with
    [json.loads].  The decoder below follows CPython's scanner
    ([json/scanner.py], [json/decoder.py] and their C twins in
    [_json.c]): [scan_value] is [scan_once], the object and array cases
    are [JSONObject] and [JSONArray], [scan_chars] is [scanstring].
    Numbers are kept as their lexeme (the [int]/[float] conversion plays
    no part here); string values are lists of code points, [\uXXXX]
    escapes included, surrogate pairs joined as [_json.c] joins them;
    an object is the list of its pairs in text order, and looking a key
    up finds its last pair, as [dict(pairs)] does.  A [JSONDecodeError]
    is [None].  The recursion is bounded by a fuel of twice the number
    of non-blank characters plus two: each nesting or loop step of the
    scanner consumes a character, or is the step from an array's loop
    into its element, which consumes one. *)

Module Json.

#[warnings="-register-all"]
Inductive json : Type :=
| JNull
| JBool (b : bool)
| JNum (lexeme : string)
| JStr (s : list N)
| JArr (xs : list json)
| JObj (kvs : list (list N * json)).

(** [json.decoder.WHITESPACE]: space, tab, line feed, carriage return. *)
Definition json_ws (c : ascii) : bool :=
  let n := N_of_ascii c in
  (n =? 32)%N || (n =? 9)%N || (n =? 10)%N || (n =? 13)%N.

Fixpoint skip_ws (s : string) : string :=
  match s with
  | String c s' => if json_ws c then skip_ws s' else s
  | EmptyString => EmptyString
  end.

Fixpoint count_nonws (s : string) : nat :=
  match s with
  | String c s' => if json_ws c then count_nonws s' else S (count_nonws s')
  | EmptyString => O
  end.

Definition is_digit (c : ascii) : bool :=
  let n := N_of_ascii c in (48 <=? n)%N && (n <=? 57)%N.

Definition hex_val (c : ascii) : option N :=
  let n := N_of_ascii c in
  if (48 <=? n)%N && (n <=? 57)%N then Some (n - 48)%N
  else if (97 <=? n)%N && (n <=? 102)%N then Some (n - 87)%N
  else if (65 <=? n)%N && (n <=? 70)%N then Some (n - 55)%N
  else None.

(** [BACKSLASH] of the decoder: the one-character escapes. *)
Definition simple_escape (n : N) : option N :=
  if (n =? 34)%N then Some 34%N
  else if (n =? 92)%N then Some 92%N
  else if (n =? 47)%N then Some 47%N
  else if (n =? 98)%N then Some 8%N
  else if (n =? 102)%N then Some 12%N
  else if (n =? 110)%N then Some 10%N
  else if (n =? 114)%N then Some 13%N
  else if (n =? 116)%N then Some 9%N
  else None.

(** Where [scanstring] is: in plain text, after a backslash, or inside
    the hex digits of a [\u] escape ([k] digits left, [acc] read so far). *)
Inductive smode := SNormal | SEsc | SHex (k : nat) (acc : N).

Definition cons_code (x : N) (o : option (list N * string)) :=
  match o with
  | Some (xs, r) => Some (x :: xs, r)
  | None => None
  end.

(** [scanstring(s, end, strict=True)], [s] starting after the opening
    quote; returns the code units and the text after the closing quote. *)
Fixpoint scan_chars (m : smode) (s : string) : option (list N * string) :=
  match s with
  | EmptyString => None
  | String c s' =>
      let n := N_of_ascii c in
      match m with
      | SNormal =>
          if (n =? 34)%N then Some ([], s')
          else if (n =? 92)%N then scan_chars SEsc s'
          else if (n <? 32)%N then None
          else cons_code n (scan_chars SNormal s')
      | SEsc =>
          match simple_escape n with
          | Some x => cons_code x (scan_chars SNormal s')
          | None => if (n =? 117)%N then scan_chars (SHex 4 0%N) s' else None
          end
      | SHex k acc =>
          match hex_val c with
          | None => None
          | Some d =>
              match k with
              | S (S k') => scan_chars (SHex (S k') (acc * 16 + d)%N) s'
              | _ => cons_code (acc * 16 + d)%N (scan_chars SNormal s')
              end
          end
      end
  end.

Definition high_surrogate (x : N) : bool := (55296 <=? x)%N && (x <=? 56319)%N.
Definition low_surrogate (x : N) : bool := (56320 <=? x)%N && (x <=? 57343)%N.

(** A [\uD8xx\uDCxx] pair is one code point. *)
Fixpoint join_surrogates (xs : list N) : list N :=
  match xs with
  | hi :: ((lo :: t) as tl) =>
      if high_surrogate hi && low_surrogate lo
      then (65536 + (hi - 55296) * 1024 + (lo - 56320))%N :: join_surrogates t
      else hi :: join_surrogates tl
  | _ => xs
  end.

Definition scan_string (s : string) : option (list N * string) :=
  match scan_chars SNormal s with
  | Some (xs, r) => Some (join_surrogates xs, r)
  | None => None
  end.

Fixpoint span_digits (s : string) : string * string :=
  match s with
  | String c s' =>
      if is_digit c then let (d, r) := span_digits s' in (String c d, r)
      else (EmptyString, s)
  | EmptyString => (EmptyString, EmptyString)
  end.

(** [NUMBER_RE]: an optional minus, then [0] or a non-zero digit and
    digits; an optional fraction [.digits]; an optional exponent
    [e] or [E], an optional sign and digits. *)
Definition scan_int_part (s : string) : option (string * string) :=
  let (sign, s1) :=
    match s with
    | String c t => if Ascii.eqb c "-" then ("-", t) else (EmptyString, s)
    | EmptyString => (EmptyString, s)
    end in
  match s1 with
  | String c t =>
      if Ascii.eqb c "0" then Some (sign ++ "0", t)
      else if is_digit c then let (d, r) := span_digits t in Some (sign ++ String c d, r)
      else None
  | EmptyString => None
  end.

Definition scan_frac (s : string) : string * string :=
  match s with
  | String c t =>
      if Ascii.eqb c "." then
        match span_digits t with
        | (EmptyString, _) => (EmptyString, s)
        | (d, r) => (String c d, r)
        end
      else (EmptyString, s)
  | EmptyString => (EmptyString, s)
  end.

Definition scan_exp (s : string) : string * string :=
  match s with
  | String e t =>
      if Ascii.eqb e "e" || Ascii.eqb e "E" then
        let (sg, t1) :=
          match t with
          | String c u =>
              if Ascii.eqb c "+" || Ascii.eqb c "-" then (String c EmptyString, u)
              else (EmptyString, t)
          | EmptyString => (EmptyString, t)
          end in
        match span_digits t1 with
        | (EmptyString, _) => (EmptyString, s)
        | (d, r) => (String e (sg ++ d), r)
        end
      else (EmptyString, s)
  | EmptyString => (EmptyString, s)
  end.

Definition scan_number (s : string) : option (json * string) :=
  match scan_int_part s with
  | Some (i, r1) =>
      let (f, r2) := scan_frac r1 in
      let (e, r3) := scan_exp r2 in
      Some (JNum (i ++ f ++ e), r3)
  | None => None
  end.

(** The non-container cases of [scan_once], in its order: the literals,
    then a number, then the constants [NaN], [Infinity], [-Infinity]. *)
Definition scan_atom (s : string) : option (json * string) :=
  if prefix "null" s then Some (JNull, drop 4 s)
  else if prefix "true" s then Some (JBool true, drop 4 s)
  else if prefix "false" s then Some (JBool false, drop 5 s)
  else match scan_number s with
       | Some r => Some r
       | None =>
           if prefix "NaN" s then Some (JNum "NaN", drop 3 s)
           else if prefix "Infinity" s then Some (JNum "Infinity", drop 8 s)
           else if prefix "-Infinity" s then Some (JNum "-Infinity", drop 9 s)
           else None
       end.

Definition quote_char : ascii := ascii_of_nat 34.

Fixpoint scan_value (n : nat) (s : string) {struct n} : option (json * string) :=
  match n with
  | O => None
  | S n' =>
      match s with
      | EmptyString => None
      | String c s' =>
          if Ascii.eqb c quote_char then
            match scan_string s' with
            | Some (xs, r) => Some (JStr xs, r)
            | None => None
            end
          else if Ascii.eqb c "{" then
            match skip_ws s' with
            | String d r =>
                if Ascii.eqb d "}" then Some (JObj [], r)
                else if Ascii.eqb d quote_char then scan_members n' [] r
                else None
            | EmptyString => None
            end
          else if Ascii.eqb c "[" then
            match skip_ws s' with
            | String d r =>
                if Ascii.eqb d "]" then Some (JArr [], r)
                else scan_elements n' [] (String d r)
            | EmptyString => None
            end
          else scan_atom s
      end
  end
(** [JSONObject]'s loop, after the quote that opens a key. *)
with scan_members (n : nat) (acc : list (list N * json)) (s : string) {struct n}
  : option (json * string) :=
  match n with
  | O => None
  | S n' =>
      match scan_string s with
      | None => None
      | Some (key, r) =>
          match skip_ws r with
          | String d r1 =>
              if Ascii.eqb d ":" then
                match scan_value n' (skip_ws r1) with
                | None => None
                | Some (v, r2) =>
                    match skip_ws r2 with
                    | String e r3 =>
                        if Ascii.eqb e "}" then Some (JObj (rev ((key, v) :: acc)), r3)
                        else if Ascii.eqb e "," then
                          match skip_ws r3 with
                          | String q r4 =>
                              if Ascii.eqb q quote_char
                              then scan_members n' ((key, v) :: acc) r4
                              else None
                          | EmptyString => None
                          end
                        else None
                    | EmptyString => None
                    end
                end
              else None
          | EmptyString => None
          end
      end
  end
(** [JSONArray]'s loop, at the start of an element. *)
with scan_elements (n : nat) (acc : list json) (s : string) {struct n}
  : option (json * string) :=
  match n with
  | O => None
  | S n' =>
      match scan_value n' s with
      | None => None
      | Some (v, r) =>
          match skip_ws r with
          | String e r1 =>
              if Ascii.eqb e "]" then Some (JArr (rev (v :: acc)), r1)
              else if Ascii.eqb e "," then scan_elements n' (v :: acc) (skip_ws r1)
              else None
          | EmptyString => None
          end
      end
  end.

(** [json.loads(s)]: blanks, one value, blanks, end of text. *)
Definition json_loads (s : string) : option json :=
  match scan_value (S (S (2 * count_nonws s))) (skip_ws s) with
  | Some (v, r) =>
      match skip_ws r with
      | EmptyString => Some v
      | _ => None
      end
  | None => None
  end.

Definition codes (s : string) : list N := map N_of_ascii (list_ascii_of_string s).

Fixpoint codes_eqb (a b : list N) : bool :=
  match a, b with
  | [], [] => true
  | x :: a', y :: b' => (x =? y)%N && codes_eqb a' b'
  | _, _ => false
  end.

(** [d[k]] on the [dict] built from the pairs: the last pair wins. *)
Fixpoint lookup (k : list N) (kvs : list (list N * json)) : option json :=
  match kvs with
  | [] => None
  | (k', v) :: t =>
      match lookup k t with
      | Some x => Some x
      | None => if codes_eqb k k' then Some v else None
      end
  end.

End Json.

(* ------------------------------------------------------------------ *)
(** ** Python exceptions and [str.format] *)

Module Py.

(** The exceptions of the pipeline, by class; [UpstreamError] is any
    exception of the model client. *)
Inductive exn : Type :=
| ValueError
| TypeError
| KeyError
| IndexError
| AttributeError
| JSONDecodeError
| UpstreamError.

(** [str.format] with automatic numbering, on a template of code points:
    [{{] and [}}] stand for a brace, [{}] takes the next argument (an
    IndexError when none is left), unused arguments are ignored, a lone
    [}] is a ValueError.  A replacement field with a name, an index or a
    format spec does not occur in the program's templates; it is reported
    as a ValueError. *)
Fixpoint py_format (t : list N) (args : list (list N)) : exn + list N :=
  match t with
  | [] => inr []
  | c :: t1 =>
      if (c =? 123)%N then
        match t1 with
        | d :: t2 =>
            if (d =? 123)%N then
              match py_format t2 args with inr r => inr (123%N :: r) | e => e end
            else if (d =? 125)%N then
              match args with
              | a :: args' =>
                  match py_format t2 args' with inr r => inr (app a r) | e => e end
              | [] => inl IndexError
              end
            else inl ValueError
        | [] => inl ValueError
        end
      else if (c =? 125)%N then
        match t1 with
        | d :: t2 =>
            if (d =? 125)%N then
              match py_format t2 args with inr r => inr (125%N :: r) | e => e end
            else inl ValueError
        | [] => inl ValueError
        end
      else match py_format t1 args with inr r => inr (c :: r) | e => e end
  end.

(** The number of [{}] fields of a template, [None] when [py_format]
    rejects it whatever the arguments. *)
Fixpoint template_fields (t : list N) : option nat :=
  match t with
  | [] => Some O
  | c :: t1 =>
      if (c =? 123)%N then
        match t1 with
        | d :: t2 =>
            if (d =? 123)%N then template_fields t2
            else if (d =? 125)%N then option_map S (template_fields t2)
            else None
        | [] => None
        end
      else if (c =? 125)%N then
        match t1 with
        | d :: t2 => if (d =? 125)%N then template_fields t2 else None
        | [] => None
        end
      else template_fields t1
  end.

End Py.

(* ------------------------------------------------------------------ *)
(** ** The prompt templates (app.py, [job_json_planner] and [job_unified]) *)

Module Templates.

Definition job_json_planner : string :=
  "
You are a Creative Director and Technical Ad Strategist.
I have provided an [IMAGE REFERENCE], [BRAND LOGO], [BRAND PRODUCT], and specific [CAMPAIGN DATA].

YOUR TASK:
Analyze the inputs and output a strategic JSON object that dictates exactly how to transform the reference image into a campaign ad.

OUTPUT FORMAT:
Return ONLY valid JSON. Do not include markdown formatting (like ```json). Use the exact keys below:
```json
{{
" ++ dq ++ "text_swap" ++ dq ++ ": " ++ dq ++ "<string>" ++ dq ++ ",
" ++ dq ++ "product_swap" ++ dq ++ ": " ++ dq ++ "<string>" ++ dq ++ ",
" ++ dq ++ "edits" ++ dq ++ ": " ++ dq ++ "<string>" ++ dq ++ "
}}
```

GUIDELINES FOR EACH FIELD:

1. " ++ dq ++ "text_swap" ++ dq ++ ": 
   - Analyze the text hierarchy in [IMAGE REFERENCE]. Map every existing text element (Headline, CTA, Subhead) to specific copy from [CAMPAIGN DATA].
   - LOGO: Give instructions to replace the existing logo with [BRAND LOGO], specifying position and contrast color (e.g., " ++ dq ++ "Use White Logo version" ++ dq ++ ").
   - RULES: Only replace existing text areas. Do NOT add new text boxes. If [IMAGE REFERENCE] has no text, only instruct on Logo placement. Ignore text printed physically on the product.

2. " ++ dq ++ "product_swap" ++ dq ++ ": 
   - detailed instructions to replace the subject in [IMAGE REFERENCE] with [BRAND PRODUCT].
   - ALIGNMENT: Explicitly state to match the exact Scale, Position, and 3D Rotation (Yaw/Pitch/Roll) of the original subject. ANY OTHER EXPLICIT INSTRUCTIONS THAT ARE NEEDED TO MAKE THE PRODUCT FIT THE REFERENCE IMAGE SHOULD BE INCLUDED.
   - MULTI-INSTANCE CHECK: If the reference shows multiple items (e.g., a pair of shoes, a row of products), instruct to replace EVERY instance with [BRAND PRODUCT].

3. " ++ dq ++ "edits" ++ dq ++ ": 
   - Instructions for global visual grading to match the [CAMPAIGN DATA] vibe.
   - COLORS: Specify which brand colors to highlight or how to color-grade the background , BASICALLY EDITING THE OVERALL LOOK OF THE AD.
   - FONTS: Suggest font styles (e.g., " ++ dq ++ "Change font to Bold Sans-Serif" ++ dq ++ ") that align with the campaign identity.

[CAMPAIGN DATA]:
{}
".

Definition job_unified : string :=
  "
You are an Expert Professional Ad Photographer, Graphic Designer, Typographer, Product Retoucher, Layout Specialist, and AI Compositor.

I have provided:
- [AD IMAGE REFERENCE]: The reference ad image that serves as the strict layout and composition guide
- [BRAND LOGO]: The brand logo to replace the existing logo
- [BRAND PRODUCT]: The product image which must be the hero subject
- [CAMPAIGN DATA]: Text and messaging for the campaign
- [GUIDELINES]: Specific instructions for product swap (Scale, Position, 3D Rotation, multi-instance requirements)
- [EDIT INSTRUCTIONS]: Specific instructions for final visual grading, colors, fonts, and overall aesthetic

YOUR TASK:
Transform the [AD IMAGE REFERENCE] into a flawless, magazine-quality professional advertisement that looks like it was shot by a top-tier commercial photographer, performing all transformations in a single pass while following all provided instructions precisely.

STEPS:

PHASE 1: TEXT & LOGO REPLACEMENT
1. TEXT REPLACEMENT:
   - Identify the headline and body copy positions in the [AD IMAGE REFERENCE]
   - Remove the original text and replace it with the messaging from [CAMPAIGN DATA] (Headlines/Slogans)
   - Match the font weight and style of the reference initially, but be ready to apply font styling from [EDIT INSTRUCTIONS] in Phase 3
   - Only replace existing text areas. Do NOT add new text boxes. If [AD IMAGE REFERENCE] has no text, skip this step

2. LOGO REPLACEMENT:
   - Locate the existing brand logo in the [AD IMAGE REFERENCE]
   - Remove it and place the attached [BRAND LOGO] in the same position and relative scale
   - Note: Logo color adjustments will be applied in Phase 3 based on [EDIT INSTRUCTIONS]

PHASE 2: PRODUCT SWAP
3. READ & UNDERSTAND GUIDELINES:
   - Carefully review the [GUIDELINES] provided. These contain specific instructions about:
     * Scale, Position, and 3D Rotation (Yaw/Pitch/Roll) requirements
     * Multi-instance replacement instructions (if multiple products need to be replaced)
     * Any special alignment or transformation requirements
   - Follow these guidelines EXACTLY as specified

4. LAYOUT & COUNT ANALYSIS:
   - Scan the [AD IMAGE REFERENCE] to identify the number of product instances present
   - **CRITICAL:** If the [GUIDELINES] specify multiple instances or the reference shows multiple products (e.g., a pair of shoes, a grid, or a repeating pattern), you must replace ALL instances as instructed
   - Analyze the exact screen space (bounding box), rotation, and scale of the original products

5. GEOMETRIC ALIGNMENT & INSERTION (Following Guidelines):
   - Remove the original subjects from the [AD IMAGE REFERENCE]
   - Insert the [BRAND PRODUCT] following the [GUIDELINES] specifications:
     * Apply the exact Scale, Position, and 3D Rotation (Yaw/Pitch/Roll) as specified in [GUIDELINES]
     * If [GUIDELINES] contain additional transformation instructions, apply them precisely
   - The new product must occupy the exact same negative space and silhouette as the old one, or as specified in [GUIDELINES]

6. COMPOSITING & BLENDING:
   - Adjust the lighting on the [BRAND PRODUCT] to match the reference scene (e.g., if light comes from the left in the reference, light the new product from the left, if shadow comes from the right, cast shadow from the right)
   - Ensure seamless integration with the background and other elements
   - Make sure the product looks solid and realistic, not " ++ dq ++ "pasted on" ++ dq ++ "

PHASE 3: FINAL POLISH & PROFESSIONAL ENHANCEMENT
7. READ & UNDERSTAND EDIT INSTRUCTIONS:
   - Carefully review the [EDIT INSTRUCTIONS] provided. These contain specific guidance about:
     * Which brand colors to use for background, fonts, and logo
     * Font style recommendations
     * Color grading preferences
     * Overall visual aesthetic and mood
     * Any specific alignment or composition requirements
   - Follow these instructions EXACTLY as specified, while also applying professional standards

8. CHECK & REPLACE (CRITICAL):
   - Look closely at the image. Are there any " ++ dq ++ "old" ++ dq ++ " or " ++ dq ++ "wrong" ++ dq ++ " products that were missed?
   - If ANY original products remain, replace them immediately with the provided [BRAND PRODUCT]
   - Ensure EVERY single product instance in the scene matches the [BRAND PRODUCT]

9. ALIGNMENT & COMPOSITION FIXES:
   - Fix any misaligned text, logos, or graphic elements. Ensure perfect horizontal and vertical alignment
   - Check that all elements follow proper grid systems and visual hierarchy
   - Ensure the product is perfectly centered or positioned according to professional composition rules (rule of thirds, golden ratio, etc.)
   - Fix any crooked or tilted elements to create a polished, professional look
   - Apply any specific alignment requirements from [EDIT INSTRUCTIONS]

10. COLOR GRADING & ADJUSTMENTS (Following Edit Instructions):
    - BACKGROUND COLOR: 
      * Follow the [EDIT INSTRUCTIONS] for background color specifications
      * If [EDIT INSTRUCTIONS] specify brand colors, use those colors to create a cohesive, professional color palette
      * If not specified, adjust or replace the background color to create a sophisticated, on-brand palette that complements the product
    - FONT COLOR: 
      * Apply font color specifications from [EDIT INSTRUCTIONS]
      * Ensure all text has optimal contrast and readability
      * Adjust font colors to match the brand aesthetic and ensure they stand out clearly against backgrounds
    - LOGO COLOR: 
      * Follow [EDIT INSTRUCTIONS] for logo color specifications (e.g., " ++ dq ++ "Use White Logo version" ++ dq ++ ", " ++ dq ++ "Use Black Logo version" ++ dq ++ ")
      * Adjust logo colors to ensure brand consistency, proper contrast, and visibility
      * Make sure the logo looks crisp and professional
    - Overall color harmony: 
      * Apply color grading instructions from [EDIT INSTRUCTIONS]
      * Create a unified color scheme that looks like a professionally color-graded commercial photograph

11. TYPOGRAPHY & FONT STYLING (Following Edit Instructions):
    - Apply font style recommendations from [EDIT INSTRUCTIONS] (e.g., " ++ dq ++ "Change font to Bold Sans-Serif" ++ dq ++ ", " ++ dq ++ "Use modern minimalist typography" ++ dq ++ ")
    - Ensure all text is crisp, readable, and properly rendered
    - Fix any font rendering issues or blurry text
    - Make sure typography aligns with the campaign identity specified in [EDIT INSTRUCTIONS]

12. REPAIR GLITCHES & ARTIFACTS:
    - Fix any weird AI distortions, jagged edges, or bad blending seams
    - Remove any artifacts, noise, or compression issues
    - Smooth out any rough transitions or unnatural edges

13. PROFESSIONAL PHOTO QUALITY ENHANCEMENTS:
    - Sharpen the image (remove blur) while maintaining natural-looking detail
    - Enhance depth of field and focus to draw attention to the product
    - Adjust lighting to create a professional studio-quality look with proper highlights and shadows
    - Add subtle professional touches like soft vignetting, color grading, and contrast adjustments
    - Ensure the overall image has the polished, high-end aesthetic of luxury brand advertisements
    - Apply any specific visual mood or aesthetic from [EDIT INSTRUCTIONS]

14. GRAPHIC ELEMENTS:
    - Make sure graphic elements and logos are sharp and professional
    - Apply any graphic styling requirements from [EDIT INSTRUCTIONS]

OUTPUT:
A flawless, high-resolution, magazine-quality professional advertisement where:
- 100% of products are correct and match the [BRAND PRODUCT] and [BRAND LOGO]
- All text has been replaced with [CAMPAIGN DATA] messaging
- All elements are perfectly aligned and composed
- Colors follow the [EDIT INSTRUCTIONS] specifications and are professionally graded and harmonious
- Typography and fonts match the [EDIT INSTRUCTIONS] recommendations
- The image looks like it was shot by a top commercial photographer
- Every detail is crisp, polished, and ready for publication
- All [GUIDELINES] and [EDIT INSTRUCTIONS] have been precisely followed

[CAMPAIGN DATA]:
{}

[GUIDELINES]:
{}

[EDIT INSTRUCTIONS]:
{}
".
End Templates.

(* ------------------------------------------------------------------ *)
(** ** The model adapters (app.py, lines 33-102)

    A response of [generate_content] is modelled by the attributes the
    adapters read: [usage_metadata] and [usage] (absent, [None], or an
    object whose token counts are absent, [None] or an int), the
    [candidates] list with its [content.parts], and [text].  The call
    itself is an input of [flow]: a response, or an exception. *)

Module Api.
Import Py.

Definition bytes : Type := list Byte.byte.

Inductive count_attr : Type :=
| CountAbsent
| CountNone
| CountInt (z : Z).

Inductive usage_attr : Type :=
| UsageAbsent
| UsageNone
| UsageObj (prompt_token_count candidates_token_count : count_attr).

Record Blob : Type := { data : option bytes }.
Record Part : Type := { inline_data : option Blob }.
Record Content : Type := { parts : option (list Part) }.
Record Candidate : Type := { content : option Content }.
Record Response : Type := {
  usage_metadata : usage_attr;
  usage : usage_attr;
  candidates : option (list Candidate);
  text : option string }.

(** The dict [{"input_tokens": ..., "output_tokens": ...}]. *)
Record usage_dict : Type := { input_tokens : Z; output_tokens : Z }.

(** [getattr(obj, name, 0)] for a count: the default on absence. *)
Definition getattr_count (c : count_attr) : option Z :=
  match c with
  | CountAbsent => Some 0%Z
  | CountNone => None
  | CountInt z => Some z
  end.

(** [v or 0]: [None] and [0] are falsy. *)
Definition or_zero (v : option Z) : Z :=
  match v with
  | Some z => if (z =? 0)%Z then 0%Z else z
  | None => 0%Z
  end.

(** [getattr(m, 'prompt_token_count', 0) or 0]; on [m = None] the
    attribute is absent and the default is taken. *)
Definition prompt_count (m : usage_attr) : Z :=
  or_zero (match m with UsageObj p _ => getattr_count p | _ => Some 0%Z end).

Definition candidates_count (m : usage_attr) : Z :=
  or_zero (match m with UsageObj _ c => getattr_count c | _ => Some 0%Z end).

Definition hasattr (m : usage_attr) : bool :=
  match m with UsageAbsent => false | _ => true end.

(** The usage block shared by both adapters (lines 50-55 and 85-91). *)
Definition usage_of (r : Response) : usage_dict :=
  if hasattr (usage_metadata r) then
    {| input_tokens := prompt_count (usage_metadata r);
       output_tokens := candidates_count (usage_metadata r) |}
  else if hasattr (usage r) then
    {| input_tokens := prompt_count (usage r);
       output_tokens := candidates_count (usage r) |}
  else {| input_tokens := 0%Z; output_tokens := 0%Z |}.

(** [gemini_response] once the call has returned: [(response.text, usage)]. *)
Definition gemini_response_result (r : Response) : option string * usage_dict :=
  (text r, usage_of r).

(** The loop over [response.candidates[0].content.parts]: the data of the
    first part whose [inline_data] is not [None]; [None] when there is none. *)
Fixpoint first_image (ps : list Part) : option bytes :=
  match ps with
  | [] => None
  | p :: ps' =>
      match inline_data p with
      | Some b => data b
      | None => first_image ps'
      end
  end.

(** [gemini_image_response] once the call has returned: [None[0]] and a
    loop over [None] are TypeErrors, [[][0]] an IndexError, [None.parts]
    an AttributeError. *)
Definition gemini_image_result (r : Response) : exn + (option bytes * usage_dict) :=
  let u := usage_of r in
  match candidates r with
  | None => inl TypeError
  | Some [] => inl IndexError
  | Some (c :: _) =>
      match content c with
      | None => inl AttributeError
      | Some ct =>
          match parts ct with
          | None => inl TypeError
          | Some ps => inr (first_image ps, u)
          end
      end
  end.

End Api.

(* ------------------------------------------------------------------ *)
(** ** [pathlib.PurePath.suffix] and [stem] *)

Module Paths.

(** [name.rfind(c)] *)
Fixpoint rfind (c : ascii) (s : string) : option nat :=
  match s with
  | EmptyString => None
  | String x s' =>
      match rfind c s' with
      | Some i => Some (S i)
      | None => if Ascii.eqb x c then Some O else None
      end
  end.

(** [i = name.rfind('.')], kept when [0 < i < len(name) - 1]. *)
Definition dot_index (name : string) : option nat :=
  match rfind "." name with
  | Some i => if Nat.ltb 0 i && Nat.ltb i (String.length name - 1) then Some i else None
  | None => None
  end.

Definition suffix (name : string) : string :=
  match dot_index name with Some i => drop i name | None => EmptyString end.

Definition stem (name : string) : string :=
  match dot_index name with Some i => String.substring 0 i name | None => name end.

End Paths.

(* ------------------------------------------------------------------ *)
(** ** [flow] and [process_single_image] (app.py, lines 323-362)

    [flow] runs in a small monad that records the model calls made, in
    order, and ends in a value or an exception.  The images are passed
    to both calls unchanged; they are part of the call functions
    [gen_text] and [gen_image], which give the response (or the
    exception) of the planner and of the image model for a prompt. *)

Module Flow.
Import Extract Json Py Api Templates Paths.

Inductive call : Type :=
| PlanCall (prompt : list N)
| RenderCall (prompt : list N).

Definition M (A : Type) : Type := list call -> list call * (exn + A).

Definition ret {A : Type} (x : A) : M A := fun log => (log, inr x).

Definition lift {A : Type} (r : exn + A) : M A := fun log => (log, r).

Definition bind {A B : Type} (m : M A) (k : A -> M B) : M B :=
  fun log => match m log with
             | (log', inr x) => k x log'
             | (log', inl e) => (log', inl e)
             end.

Notation "x <- m ;; k" := (bind m (fun x => k))
  (at level 61, m at next level, right associativity).

(** A model call: recorded, then its response or its exception. *)
Definition api_call (c : call) (r : exn + Response) : M Response :=
  fun log => (app log [c], r).

(** [job[key]] on a decoded value: a dict lookup, a KeyError when the key
    is missing, a TypeError on a list, a string, a number, a bool or [None]. *)
Definition getitem (job : json) (key : string) : exn + json :=
  match job with
  | JObj kvs =>
      match lookup (codes key) kvs with
      | Some v => inr v
      | None => inl KeyError
      end
  | _ => inl TypeError
  end.

(** [json.loads(extract_x(output_0, "json"))]; [re.search] on [None]
    (a response without text) is a TypeError. *)
Definition parse_job (output_0 : option string) : exn + json :=
  match output_0 with
  | None => inl TypeError
  | Some s =>
      match json_loads (extract_x s "json") with
      | Some j => inr j
      | None => inl JSONDecodeError
      end
  end.

Definition fs : Type := list (string * bytes).

(** [open(path, "wb")] followed by writes leaves [path] holding [b]. *)
Definition fs_write (path : string) (b : bytes) (d : fs) : fs :=
  (path, b) :: filter (fun e => negb (String.eqb (fst e) path)) d.

Fixpoint fs_lookup (path : string) (d : fs) : option bytes :=
  match d with
  | [] => None
  | (p, b) :: d' => if String.eqb p path then Some b else fs_lookup path d'
  end.

Definition output_name (ref : string) : string := stem ref ++ "_new_1_gen.png".

Section WithStr.

(** [str(v)] of a decoded value that is not a string (a string is itself). *)
Variable str_other : json -> list N.

Definition py_str (v : json) : list N :=
  match v with
  | JStr xs => xs
  | _ => str_other v
  end.

Definition flow (brand_info : list N) (gen_text gen_image : list N -> exn + Response)
  : M (option bytes * usage_dict) :=
  p0 <- lift (py_format (codes job_json_planner) [brand_info]) ;;
  r0 <- api_call (PlanCall p0) (gen_text p0) ;;
  let (output_0, usage_0) := gemini_response_result r0 in
  job <- lift (parse_job output_0) ;;
  a <- lift (getitem job "text_swap") ;;
  b <- lift (getitem job "product_swap") ;;
  c <- lift (getitem job "edits") ;;
  p1 <- lift (py_format (codes job_unified) [py_str a; py_str b; py_str c]) ;;
  r1 <- api_call (RenderCall p1) (gen_image p1) ;;
  res <- lift (gemini_image_result r1) ;;
  let (output, usage_1) := res in
  ret (output, {| input_tokens := (0 + input_tokens usage_0 + input_tokens usage_1)%Z;
                  output_tokens := (0 + output_tokens usage_0 + output_tokens usage_1)%Z |}).

(** The body of [async with semaphore]: load the reference image (a
    ValueError when it is broken), [flow], then [open(output_path, "wb")],
    which creates or empties the file, and [f.write(output_image_bytes)],
    a TypeError when the bytes are [None]. *)
Definition process_single_image (ref : string) (image_ok : bool) (brand_info : list N)
    (gen_text gen_image : list N -> exn + Response) (d : fs)
  : list call * fs * (exn + usage_dict) :=
  if negb image_ok then ([], d, inl ValueError) else
  match flow brand_info gen_text gen_image [] with
  | (log, inl e) => (log, d, inl e)
  | (log, inr (out, u)) =>
      let d' := fs_write (output_name ref) [] d in
      match out with
      | None => (log, d', inl TypeError)
      | Some b => (log, fs_write (output_name ref) b d', inr u)
      end
  end.

End WithStr.

End Flow.

(* ------------------------------------------------------------------ *)
(** ** [main] (app.py, lines 364-413)

    The directory listing is an input ([iterdir]'s order); each
    reference has its own image and model calls ([ref_env]).  The runs
    are taken one after another in task order, the order in which
    [asyncio.gather] returns their results; a failing run ends the batch
    with its exception, as [gather] re-raises it.  Their interleaving
    under the semaphore is the subject of [Gate]. *)

Module Batch.
Import Json Py Api Paths Flow.

Record ref_env : Type := {
  image_ok : bool;
  gen_text : list N -> exn + Response;
  gen_image : list N -> exn + Response }.

Definition image_extensions : list string :=
  [".jpg"; ".jpeg"; ".png"; ".bmp"; ".gif"; ".webp"].

Definition is_image (name : string) : bool :=
  existsb (String.eqb (py_lower (suffix name))) image_extensions.

Definition ref_image_paths (entries : list string) : list string :=
  filter is_image entries.

Record stats : Type := { count : nat; total_input : Z; total_output : Z }.

(** [sum(u.get(field, 0) for u in usage_results)] *)
Definition sum_field (f : usage_dict -> Z) (us : list usage_dict) : Z :=
  fold_left (fun acc u => (acc + f u)%Z) us 0%Z.

Section Main.

Variable str_other : json -> list N.
Variable env : string -> ref_env.
Variable brand_info : list N.

Fixpoint gather (d : fs) (paths : list string) : fs * (exn + list usage_dict) :=
  match paths with
  | [] => (d, inr [])
  | p :: ps =>
      match process_single_image str_other p (image_ok (env p)) brand_info
              (gen_text (env p)) (gen_image (env p)) d with
      | (_, d1, inl e) => (d1, inl e)
      | (_, d1, inr u) =>
          match gather d1 ps with
          | (d2, inr us) => (d2, inr (u :: us))
          | (d2, inl e) => (d2, inl e)
          end
      end
  end.

(** The tasks of [main] are [ref_image_paths[3:]]; the statistics block
    is printed when [usage_results] is not empty. *)
Definition main (assets_ok : bool) (entries : list string) (d : fs)
  : fs * (exn + option stats) :=
  if negb assets_ok then (d, inl ValueError) else
  match gather d (skipn 3 (ref_image_paths entries)) with
  | (d', inl e) => (d', inl e)
  | (d', inr []) => (d', inr None)
  | (d', inr us) =>
      (d', inr (Some {| count := List.length us;
                        total_input := sum_field input_tokens us;
                        total_output := sum_field output_tokens us |}))
  end.

End Main.

End Batch.

(* ------------------------------------------------------------------ *)
(** ** The admission gate: [asyncio.Semaphore(3)] around each run

    Each run of [process_single_image] is queued, then holds the
    semaphore through its stages (loading, the two model calls, the
    write), then leaves [async with], on success or on an exception.
    [acquire] takes a slot when the counter is positive; [release] gives
    it back.  Any queued run may be the one admitted, which covers the
    FIFO order of asyncio's waiters. *)

Module Gate.

Inductive run_state : Type :=
| Queued
| InFlight (stage : nat)
| Done.

Record gate : Type := { value : nat; runs : list run_state }.

Fixpoint set_nth {A : Type} (i : nat) (x : A) (l : list A) : list A :=
  match i, l with
  | O, _ :: l' => x :: l'
  | S i', y :: l' => y :: set_nth i' x l'
  | _, [] => []
  end.

Definition initial (n : nat) : gate := {| value := 3; runs := repeat Queued n |}.

Inductive step : gate -> gate -> Prop :=
| step_acquire (g : gate) (i : nat) :
    0 < value g -> nth_error (runs g) i = Some Queued ->
    step g {| value := value g - 1; runs := set_nth i (InFlight 0) (runs g) |}
| step_stage (g : gate) (i k : nat) :
    nth_error (runs g) i = Some (InFlight k) ->
    step g {| value := value g; runs := set_nth i (InFlight (S k)) (runs g) |}
| step_release (g : gate) (i k : nat) :
    nth_error (runs g) i = Some (InFlight k) ->
    step g {| value := S (value g); runs := set_nth i Done (runs g) |}.

Definition is_in_flight (s : run_state) : bool :=
  match s with InFlight _ => true | _ => false end.

Definition is_queued (s : run_state) : bool :=
  match s with Queued => true | _ => false end.

Definition in_flight (g : gate) : nat := List.length (filter is_in_flight (runs g)).

Definition queued (g : gate) : nat := List.length (filter is_queued (runs g)).

Definition reachable (n : nat) (g : gate) : Prop := clos_refl_trans_1n gate step (initial n) g.

End Gate.

(* ------------------------------------------------------------------ *)
(** ** The interactive front end (streamlit_app.py)

    [st.session_state.job_json] holds the decoded plan, Python's [None]
    being [JNull] (as [json.loads("null")] gives).  The widgets are an
    input: [st.text_area] gives back the text shown in the box, its
    [value] or what the user typed in its place. *)

Module Front.
Import Json Py Templates Flow.

Definition text_area_widget : Type := string -> json -> list N.

(** [job.get(key, "")]: an AttributeError on a value that is not a dict. *)
Definition dict_get (job : json) (key : string) : exn + json :=
  match job with
  | JObj kvs =>
      match lookup (codes key) kvs with
      | Some v => inr v
      | None => inr (JStr [])
      end
  | _ => inl AttributeError
  end.

(** Step 2 (lines 118-150) on one run of the script: the stored plan
    before and after; skipped when the plan is [None]. *)
Definition plan_edit (text_area : text_area_widget) (job_json : json) : exn + json :=
  match job_json with
  | JNull => inr JNull
  | job =>
      match dict_get job "text_swap" with
      | inl e => inl e
      | inr v1 =>
          let text_swap := text_area "Text Swap Instructions" v1 in
          match dict_get job "product_swap" with
          | inl e => inl e
          | inr v2 =>
              let product_swap := text_area "Product Swap Instructions" v2 in
              match dict_get job "edits" with
              | inl e => inl e
              | inr v3 =>
                  let edits := text_area "Edit Instructions" v3 in
                  inr (JObj [(codes "text_swap", JStr text_swap);
                             (codes "product_swap", JStr product_swap);
                             (codes "edits", JStr edits)])
              end
          end
      end
  end.

(** Step 3 (lines 174-179): the prompt of the image call. *)
Definition interactive_prompt (str_other : json -> list N) (campaign_info : list N)
    (current_job : json) : exn + list N :=
  match getitem current_job "product_swap" with
  | inl e => inl e
  | inr b =>
      match getitem current_job "edits" with
      | inl e => inl e
      | inr c =>
          py_format (codes job_unified)
            [campaign_info; py_str str_other b; py_str str_other c]
      end
  end.

End Front.

(* ------------------------------------------------------------------ *)
(** ** The two buttons of the interactive front end (streamlit_app.py)

    [st.session_state] holds the plan ([JNull] for [None]), the generated
    image and the usage.  An upload is [None] when the widget is empty,
    [Some ok] when a file is there, [ok] telling whether [Image.open]
    decodes it.  The planner and the image model are inputs, as in [flow]. *)

Module Session.
Import Json Py Api Templates Flow Front.

Record session : Type := {
  job_json : json;
  generated_image : option bytes;
  usage_stats : option usage_dict }.

(** What [upload_to_pil] raises on a file PIL cannot identify, beside the
    exceptions of the pipeline. *)
Inductive ui_exn : Type :=
| PyError (e : exn)
| ImageDecodeError.

(** What the page shows after the button. *)
Inductive notice : Type :=
| UploadBoth
| EnterCampaign
| Failed (e : ui_exn)
| Succeeded.

(** [upload_to_pil] on the reference, the product and (when given) the
    logo, in this order; the first that does not decode raises. *)
Definition uploads_decode (ad_ok product_ok : bool) (logo : option bool) : bool :=
  ad_ok && product_ok && match logo with Some ok => ok | None => true end.

(** "Generate JSON Plan" (lines 78-115): the checks, then in the [try]
    block the planner call, [extract_x], [json.loads] and the two
    assignments to the session; an exception is caught and shown. *)
Definition generate_plan (ad_reference product_image logo_image : option bool)
    (campaign_info : string) (gen_text : list N -> exn + Response) (st : session)
  : list call * session * notice :=
  match ad_reference, product_image with
  | Some ad_ok, Some product_ok =>
      if String.eqb (py_strip campaign_info) EmptyString then ([], st, EnterCampaign)
      else if negb (uploads_decode ad_ok product_ok logo_image)
      then ([], st, Failed ImageDecodeError)
      else
        match py_format (codes job_json_planner) [codes campaign_info] with
        | inl e => ([], st, Failed (PyError e))
        | inr p0 =>
            match gen_text p0 with
            | inl e => ([PlanCall p0], st, Failed (PyError e))
            | inr r =>
                match parse_job (text r) with
                | inl e => ([PlanCall p0], st, Failed (PyError e))
                | inr j =>
                    ([PlanCall p0],
                     {| job_json := j; generated_image := generated_image st;
                        usage_stats := Some (usage_of r) |}, Succeeded)
                end
            end
        end
  | _, _ => ([], st, UploadBoth)
  end.

(** "Generate Ad Image" (lines 154-193), on the plan stored by the edit
    step: the upload check, then in the [try] block the prompt, the image
    call and the two assignments. *)
Definition generate_image (ad_reference product_image logo_image : option bool)
    (campaign_info : string) (str_other : json -> list N)
    (gen_image : list N -> exn + Response) (st : session)
  : list call * session * notice :=
  match ad_reference, product_image with
  | Some ad_ok, Some product_ok =>
      if negb (uploads_decode ad_ok product_ok logo_image)
      then ([], st, Failed ImageDecodeError)
      else
        match interactive_prompt str_other (codes campaign_info) (job_json st) with
        | inl e => ([], st, Failed (PyError e))
        | inr p1 =>
            match gen_image p1 with
            | inl e => ([RenderCall p1], st, Failed (PyError e))
            | inr r =>
                match gemini_image_result r with
                | inl e => ([RenderCall p1], st, Failed (PyError e))
                | inr (image_bytes, u) =>
                    ([RenderCall p1],
                     {| job_json := job_json st; generated_image := image_bytes;
                        usage_stats := Some u |}, Succeeded)
                end
            end
        end
  | _, _ => ([], st, UploadBoth)
  end.

End Session.

(* ------------------------------------------------------------------ *)
(** ** Shapes used in the statements below *)

Module Shapes.
Import Py Gate.

(** The literal text of a well-formed template between its [{}] fields,
    the escapes [{{] and [}}] read as one brace. *)
Definition cons_first (c : N) (cs : list (list N)) : list (list N) :=
  match cs with
  | x :: cs' => (c :: x) :: cs'
  | [] => [[c]]
  end.

Fixpoint chunks (t : list N) : list (list N) :=
  match t with
  | [] => [[]]
  | c :: t1 =>
      if (c =? 123)%N then
        match t1 with
        | d :: t2 =>
            if (d =? 123)%N then cons_first 123%N (chunks t2)
            else if (d =? 125)%N then [] :: chunks t2
            else [[]]
        | [] => [[]]
        end
      else if (c =? 125)%N then
        match t1 with
        | d :: t2 => if (d =? 125)%N then cons_first 125%N (chunks t2) else [[]]
        | [] => [[]]
        end
      else cons_first c (chunks t1)
  end.

(** [c0 ++ a0 ++ c1 ++ a1 ++ ... ++ ck] *)
Fixpoint interleave (cs : list (list N)) (args : list (list N)) : list N :=
  match cs with
  | [] => []
  | c :: cs' =>
      match args with
      | a :: args' => app c (app a (interleave cs' args'))
      | [] => c
      end
  end.

(** How far a run has got: queued, holding the semaphore, done. *)
Definition rank (s : run_state) : nat :=
  match s with Queued => 0 | InFlight _ => 1 | Done => 2 end.

End Shapes.

(* ------------------------------------------------------------------ *)
(** ** Inputs and predicates of the statements below *)

Module Examples.
Import Extract Json Py Api Flow Batch Front.

(** [{"text_swap":"X","product_swap":"Y","edits":"Z"}] *)
Definition plan_json : string :=
  "{" ++ dq ++ "text_swap" ++ dq ++ ":" ++ dq ++ "X" ++ dq ++ ","
  ++ dq ++ "product_swap" ++ dq ++ ":" ++ dq ++ "Y" ++ dq ++ ","
  ++ dq ++ "edits" ++ dq ++ ":" ++ dq ++ "Z" ++ dq ++ "}".

(** The same three keys, the value of [text_swap] holding a fenced block. *)
Definition fenced_value_plan : string :=
  "{" ++ dq ++ "text_swap" ++ dq ++ ":" ++ dq ++ "```json a```" ++ dq ++ ","
  ++ dq ++ "product_swap" ++ dq ++ ":" ++ dq ++ "Y" ++ dq ++ ","
  ++ dq ++ "edits" ++ dq ++ ":" ++ dq ++ "Z" ++ dq ++ "}".

Definition plan_value : json :=
  JObj [(codes "text_swap", JStr (codes "X")); (codes "product_swap", JStr (codes "Y"));
        (codes "edits", JStr (codes "Z"))].

Definition fenced_value_value : json :=
  JObj [(codes "text_swap", JStr (codes "```json a```"));
        (codes "product_swap", JStr (codes "Y")); (codes "edits", JStr (codes "Z"))].

(** A [jsonc] block: no [json] block ends its tag with whitespace. *)
Definition jsonc_reply : string := "```jsonc" ++ nl ++ "{}" ++ nl ++ "```".

Definition image_part : Part :=
  {| inline_data := Some {| data := Some [x89; x50; x4e; x47] |} |}.

Definition text_part : Part := {| inline_data := None |}.

Definition planner_reply : Response :=
  {| usage_metadata := UsageObj (CountInt 10) (CountInt 5);
     usage := UsageAbsent;
     candidates := None;
     text := Some ("```json" ++ nl ++ plan_json ++ nl ++ "```") |}.

Definition no_json_reply : Response :=
  {| usage_metadata := UsageObj (CountInt 10) (CountInt 5);
     usage := UsageAbsent;
     candidates := None;
     text := Some "Sorry, no plan today." |}.

Definition image_reply : Response :=
  {| usage_metadata := UsageObj (CountInt 3) (CountInt 7);
     usage := UsageAbsent;
     candidates := Some [{| content := Some {| parts := Some [image_part] |} |}];
     text := None |}.

(** An image response whose only part is text. *)
Definition text_only_reply : Response :=
  {| usage_metadata := UsageObj (CountInt 3) (CountInt 7);
     usage := UsageAbsent;
     candidates := Some [{| content := Some {| parts := Some [text_part] |} |}];
     text := Some "I cannot draw that." |}.

(** An image response whose usage block reports a negative prompt count
    and a [None] candidates count. *)
Definition negative_usage_reply : Response :=
  {| usage_metadata := UsageObj (CountInt (-5)) CountNone;
     usage := UsageAbsent;
     candidates := Some [{| content := Some {| parts := Some [image_part] |} |}];
     text := None |}.

Definition good_env : ref_env :=
  {| image_ok := true;
     gen_text := fun _ => inr planner_reply;
     gen_image := fun _ => inr image_reply |}.

(** A references directory with five images and a text file. *)
Definition five_refs : list string :=
  ["a.png"; "b.JPG"; "c.jpeg"; "d.webp"; "e.gif"; "notes.txt"].

Definition no_str : json -> list N := fun _ => [].

(** A text box left as it is: it gives back the text of its value. *)
Definition echo_widget : text_area_widget := fun _ v => py_str no_str v.

(** The token counts a response reports are [None], absent or [>= 0]. *)
Definition count_nonneg (c : count_attr) : bool :=
  match c with CountInt z => (0 <=? z)%Z | _ => true end.

Definition counts_nonneg (m : usage_attr) : bool :=
  match m with UsageObj p c => count_nonneg p && count_nonneg c | _ => true end.

(** The usage attribute the adapters read, and its two counts. *)
Definition usage_source (r : Response) : usage_attr :=
  if hasattr (usage_metadata r) then usage_metadata r else usage r.

Definition prompt_attr (m : usage_attr) : count_attr :=
  match m with UsageObj p _ => p | _ => CountAbsent end.

Definition candidates_attr (m : usage_attr) : count_attr :=
  match m with UsageObj _ c => c | _ => CountAbsent end.

Definition with_usage (m1 m2 : usage_attr) (r : Response) : Response :=
  {| usage_metadata := m1; usage := m2; candidates := candidates r; text := text r |}.

Definition three_key_plan (a b c : list N) : json :=
  JObj [(codes "text_swap", JStr a); (codes "product_swap", JStr b); (codes "edits", JStr c)].

Definition get_or_empty (kvs : list (list N * json)) (key : string) : json :=
  match lookup (codes key) kvs with Some v => v | None => JStr [] end.

(** The run of a reference loads its image and ends [flow] with bytes. *)
Definition task_ok (str_other : json -> list N) (brand_info : list N) (e : ref_env) : Prop :=
  image_ok e = true /\
  exists log b u, flow str_other brand_info (gen_text e) (gen_image e) [] = (log, inr (Some b, u)).

End Examples.

(* ================================================================== *)
(** * Lemmas *)

Module TextFacts.

Lemma sapp_assoc (a b c : string) : (a ++ b) ++ c = a ++ (b ++ c).
Proof. induction a as [|x a IH]; simpl; [reflexivity | now rewrite IH]. Qed.

Lemma sapp_nil_r (s : string) : s ++ EmptyString = s.
Proof. induction s as [|x s IH]; simpl; [reflexivity | now rewrite IH]. Qed.

Lemma slength_app (a b : string) :
  String.length (a ++ b) = String.length a + String.length b.
Proof. induction a as [|x a IH]; simpl; [reflexivity | now rewrite IH]. Qed.

Lemma drop_app (k : nat) (s t : string) :
  k <= String.length s -> drop k (s ++ t) = drop k s ++ t.
Proof.
  revert s; induction k as [|k IH]; intros s Hk; [reflexivity|].
  destruct s as [|x s]; simpl in *; [lia|]. apply IH; lia.
Qed.

Lemma drop_app_exact (s t : string) : drop (String.length s) (s ++ t) = t.
Proof. induction s as [|x s IH]; simpl; auto. Qed.

Lemma prefix_app (s t : string) : prefix s (s ++ t) = true.
Proof.
  induction s as [|x s IH]; simpl; [now destruct t|].
  destruct (ascii_dec x x); [exact IH | congruence].
Qed.

Lemma prefix_length (p s : string) :
  prefix p s = true -> String.length p <= String.length s.
Proof.
  revert s; induction p as [|x p IH]; intros s H; simpl; [lia|].
  destruct s as [|y s]; simpl in H; [discriminate|].
  destruct (ascii_dec x y); [|discriminate]. apply IH in H. simpl. lia.
Qed.

Lemma prefix_app_inv (p s : string) :
  prefix p s = true -> exists t, s = p ++ t.
Proof.
  revert s; induction p as [|x p IH]; intros s H; simpl.
  - now exists s.
  - destruct s as [|y s]; simpl in H; [discriminate|].
    destruct (ascii_dec x y) as [->|]; [|discriminate].
    destruct (IH s H) as [t ->]. now exists t.
Qed.

Lemma lstrip_drop_ws (b : string) : lstrip (drop (ws_run b) b) = lstrip b.
Proof.
  induction b as [|x b IH]; simpl; [reflexivity|].
  destruct (py_isspace x) eqn:E; simpl; [exact IH | now rewrite E].
Qed.

Lemma ws_run_le (b : string) : ws_run b <= String.length b.
Proof.
  induction b as [|x b IH]; simpl; [lia|]. destruct (py_isspace x); lia.
Qed.

(** The text starts with a non-blank character, or is empty. *)
Definition starts_nonspace (s : string) : bool :=
  match s with
  | String c _ => negb (py_isspace c)
  | EmptyString => true
  end.

Lemma ws_run_app (b x : string) :
  starts_nonspace x = true -> ws_run (b ++ x) = ws_run b.
Proof.
  intros Hx. induction b as [|c b IH]; simpl.
  - destruct x as [|c x]; simpl in *; [reflexivity|].
    destruct (py_isspace c); [discriminate | reflexivity].
  - destruct (py_isspace c); [now rewrite IH | reflexivity].
Qed.

Lemma all_space_lstrip (w : string) :
  forallb py_isspace (list_ascii_of_string w) = true -> lstrip w = EmptyString.
Proof.
  induction w as [|c w IH]; simpl; [reflexivity|].
  intros H. apply andb_prop in H as [H1 H2]. rewrite H1. auto.
Qed.

Lemma lstrip_app_space (w s : string) :
  forallb py_isspace (list_ascii_of_string w) = true -> lstrip (w ++ s) = lstrip s.
Proof.
  induction w as [|c w IH]; simpl; [reflexivity|].
  intros H. apply andb_prop in H as [H1 H2]. rewrite H1. auto.
Qed.

Lemma lstrip_nonspace (c : ascii) (s : string) :
  py_isspace c = false -> lstrip (String c s) = String c s.
Proof. intros H. simpl. now rewrite H. Qed.

Lemma rstrip_space (w : string) :
  forallb py_isspace (list_ascii_of_string w) = true -> rstrip w = EmptyString.
Proof.
  induction w as [|c w IH]; simpl; [reflexivity|].
  intros H. apply andb_prop in H as [H1 H2]. rewrite (IH H2). now rewrite H1.
Qed.

Lemma rstrip_app_space (s w : string) :
  forallb py_isspace (list_ascii_of_string w) = true -> rstrip (s ++ w) = rstrip s.
Proof.
  intros Hw. induction s as [|c s IH]; simpl.
  - now apply rstrip_space.
  - now rewrite IH.
Qed.

Lemma rstrip_last (p : string) (c : ascii) :
  py_isspace c = false -> rstrip (p ++ String c EmptyString) = p ++ String c EmptyString.
Proof.
  intros Hc. induction p as [|x p IH]; simpl.
  - now rewrite Hc.
  - rewrite IH. destruct p; reflexivity.
Qed.

End TextFacts.

Module ExtractFacts.
Import TextFacts Extract.

Lemma contains_drop (pat s : string) (k : nat) :
  contains pat s = false -> contains pat (drop k s) = false.
Proof.
  revert s; induction k as [|k IH]; intros s H; [exact H|].
  destruct s as [|x s]; simpl in *; [exact H|].
  apply orb_false_elim in H as [_ H]. auto.
Qed.

Lemma lazy_body_eq (t : string) :
  lazy_body t = if prefix fence t then Some EmptyString
                else match t with
                     | EmptyString => None
                     | String c t' => option_map (String c) (lazy_body t')
                     end.
Proof. destruct t; reflexivity. Qed.

Lemma lazy_body_none (t : string) : contains fence t = false -> lazy_body t = None.
Proof.
  induction t as [|x t IH]; intros H; simpl in *.
  - reflexivity.
  - apply orb_false_elim in H as [H1 H2]. unfold fence in *.
    rewrite H1, (IH H2). reflexivity.
Qed.

Lemma try_ws_eq (k : nat) (t : string) :
  try_ws k t = match lazy_body (drop k t) with
               | Some g => Some g
               | None => match k with O => None | S k' => try_ws k' t end
               end.
Proof. destruct k; reflexivity. Qed.

Lemma try_ws_none (k : nat) (t : string) : contains fence t = false -> try_ws k t = None.
Proof.
  intros H. induction k as [|k IH]; rewrite try_ws_eq;
    rewrite (lazy_body_none _ (contains_drop _ _ _ H)); auto.
Qed.

Lemma nowhere_before_app (pat a b t : string) :
  nowhere_before pat (a ++ b) t <-> nowhere_before pat a (b ++ t) /\ nowhere_before pat b t.
Proof.
  induction a as [|x a IH]; simpl.
  - tauto.
  - rewrite sapp_assoc, IH. tauto.
Qed.

Lemma nowhere_before_drop (pat b t : string) (k : nat) :
  nowhere_before pat b t -> nowhere_before pat (drop k b) t.
Proof.
  revert b; induction k as [|k IH]; intros b H; [exact H|].
  destruct b as [|x b]; simpl in *; [exact I|]. apply IH, H.
Qed.

Lemma lazy_body_first (b post : string) :
  nowhere_before fence b (fence ++ post) -> lazy_body (b ++ fence ++ post) = Some b.
Proof.
  induction b as [|x b IH]; intros H.
  - change (EmptyString ++ fence ++ post) with (fence ++ post).
    rewrite lazy_body_eq, prefix_app. reflexivity.
  - destruct H as [H1 H2].
    change (String x b ++ fence ++ post) with (String x (b ++ fence ++ post)) in *.
    rewrite lazy_body_eq, H1. cbv iota beta. now rewrite (IH H2).
Qed.

(** At an opening with a closing [```] after it, the match captures the
    text up to the first [```], whitespace after the tag left out. *)
Lemma match_at_block (opening body post : string) :
  nowhere_before fence body (fence ++ post) ->
  match_at opening (opening ++ body ++ fence ++ post)
  = Some (drop (ws_run body) body).
Proof.
  intros H. unfold match_at. rewrite prefix_app, drop_app_exact.
  rewrite ws_run_app by reflexivity.
  rewrite try_ws_eq, drop_app by apply ws_run_le.
  now rewrite (lazy_body_first _ _ (nowhere_before_drop _ _ _ _ H)).
Qed.

Lemma search_eq (opening s : string) :
  search opening s = match match_at opening s with
                     | Some g => Some g
                     | None => match s with
                               | EmptyString => None
                               | String _ s' => search opening s'
                               end
                     end.
Proof. destruct s; reflexivity. Qed.

Lemma search_skip (opening pre t : string) :
  nowhere_before opening pre t -> search opening (pre ++ t) = search opening t.
Proof.
  induction pre as [|x pre IH]; intros H; [reflexivity|].
  destruct H as [H1 H2].
  change (String x pre ++ t) with (String x (pre ++ t)) in *.
  rewrite search_eq. unfold match_at at 1. rewrite H1. cbv iota beta.
  now apply IH.
Qed.

Lemma search_none (opening s : string) :
  (forall i, prefix opening (drop i s) = true ->
             contains fence (drop (i + String.length opening) s) = false) ->
  search opening s = None.
Proof.
  induction s as [|x s IH]; intros H; rewrite search_eq; unfold match_at at 1.
  - destruct (prefix opening EmptyString) eqn:E; [|reflexivity].
    specialize (H 0 E). simpl in H.
    rewrite try_ws_none; [reflexivity|]. now destruct (String.length opening).
  - destruct (prefix opening (String x s)) eqn:E.
    + rewrite try_ws_none by (specialize (H 0 E); exact H).
      apply IH. intros i Hi. exact (H (S i) Hi).
    + apply IH. intros i Hi. exact (H (S i) Hi).
Qed.

(** A block [```tag body```] after a text [pre] in which no opening
    starts: [extract_x] returns the stripped body up to the first [```]. *)
Lemma extract_fenced (tag pre body post : string) :
  nowhere_before (fence ++ tag) pre (fence ++ tag ++ body ++ fence ++ post) ->
  nowhere_before fence body (fence ++ post) ->
  extract_x (pre ++ fence ++ tag ++ body ++ fence ++ post) tag = py_strip body.
Proof.
  intros H1 H2. unfold extract_x.
  replace (fence ++ tag ++ body ++ fence ++ post)
    with ((fence ++ tag) ++ body ++ fence ++ post) in * by apply sapp_assoc.
  rewrite (search_skip _ _ _ H1), search_eq, (match_at_block _ _ _ H2).
  unfold py_strip. now rewrite lstrip_drop_ws.
Qed.

(** Without [```] in the text there is no match, whatever the tag. *)
Lemma extract_no_fence (s tag : string) : contains fence s = false -> extract_x s tag = s.
Proof.
  intros H. unfold extract_x. rewrite search_none; [reflexivity|].
  intros i _. now apply contains_drop.
Qed.

Lemma prefix_app_long (p s t : string) :
  String.length p <= String.length s -> prefix p (s ++ t) = prefix p s.
Proof.
  revert s; induction p as [|x p IH]; intros s Hl; simpl.
  - now destruct (s ++ t), s.
  - destruct s as [|y s]; simpl in Hl; [lia|]. simpl.
    destruct (ascii_dec x y); [apply IH; lia | reflexivity].
Qed.

Lemma contains_app_l (pat a b : string) :
  contains pat (a ++ b) = false -> contains pat b = false.
Proof. induction a as [|x a IH]; simpl; [auto|]. intros H. apply orb_false_elim in H. tauto. Qed.

Lemma prefix_cons (x y : ascii) (p s : string) :
  prefix (String x p) (String y s) = if ascii_dec x y then prefix p s else false.
Proof. reflexivity. Qed.

Lemma prefix_fence_head (c : ascii) (t : string) :
  Ascii.eqb c "`" = false -> prefix fence (String c t) = false.
Proof.
  intros Hc. change fence with (String "`" (String "`" (String "`" EmptyString))).
  rewrite prefix_cons.
  destruct (ascii_dec "`" c) as [<-|]; [discriminate | reflexivity].
Qed.

(** No [```] starts inside a text without [```] whose last character is
    not a backtick, whatever follows it. *)
Lemma nowhere_fence_last (q t : string) (c : ascii) :
  contains fence (q ++ String c EmptyString) = false -> Ascii.eqb c "`" = false ->
  nowhere_before fence (q ++ String c EmptyString) t.
Proof.
  intros H Hc. induction q as [|x q IH].
  - split; [|exact I]. exact (prefix_fence_head _ _ Hc).
  - change (String x q ++ String c EmptyString) with (String x (q ++ String c EmptyString)) in *.
    simpl in H. apply orb_false_elim in H as [H1 H2]. split; [|exact (IH H2)].
    destruct (Ascii.eqb x "`") eqn:Ex; [|exact (prefix_fence_head _ _ Ex)].
    apply Ascii.eqb_eq in Ex. subst x.
    destruct q as [|y q].
    + cbn [append]. change fence with (String "`" (String "`" (String "`" EmptyString))).
      rewrite !prefix_cons.
      destruct (ascii_dec "`" "`") as [_|]; [|congruence].
      destruct (ascii_dec "`" c) as [<-|]; [discriminate | reflexivity].
    + rewrite prefix_app_long; [exact H1|].
      simpl. rewrite slength_app. simpl. unfold fence. simpl. lia.
Qed.

Lemma nowhere_fence_space (w t : string) :
  forallb py_isspace (list_ascii_of_string w) = true -> nowhere_before fence w t.
Proof.
  induction w as [|x w IH]; simpl; [auto|]. intros H. apply andb_prop in H as [H1 H2].
  split; [|exact (IH H2)]. apply prefix_fence_head.
  destruct (Ascii.eqb x "`") eqn:E; [|reflexivity].
  apply Ascii.eqb_eq in E. now subst.
Qed.

End ExtractFacts.

Module JsonFacts.
Import TextFacts Json.

Definition all_ws (w : string) : bool := forallb json_ws (list_ascii_of_string w).

Definition omap_rest {A : Type} (w : string) (o : option (A * string)) : option (A * string) :=
  match o with
  | Some (v, r) => Some (v, r ++ w)
  | None => None
  end.

Ltac ascii_cases c := destruct c as [[] [] [] [] [] [] [] []].

Lemma json_ws_cases (c : ascii) :
  json_ws c = true ->
  c = " "%char \/ c = "009"%char \/ c = "010"%char \/ c = "013"%char.
Proof. ascii_cases c; vm_compute; intros H; try discriminate; tauto. Qed.

Lemma json_ws_py_isspace (c : ascii) : json_ws c = true -> py_isspace c = true.
Proof. intros H. apply json_ws_cases in H. now destruct H as [->|[->|[->| ->]]]. Qed.

Lemma all_ws_cons (c : ascii) (w : string) :
  all_ws (String c w) = json_ws c && all_ws w.
Proof. reflexivity. Qed.

Lemma all_ws_py (w : string) :
  all_ws w = true -> forallb py_isspace (list_ascii_of_string w) = true.
Proof.
  induction w as [|c w IH]; simpl; [reflexivity|].
  intros H. apply andb_prop in H as [H1 H2].
  now rewrite (json_ws_py_isspace _ H1), (IH H2).
Qed.

Lemma skip_ws_all (w : string) : all_ws w = true -> skip_ws w = EmptyString.
Proof.
  induction w as [|c w IH]; simpl; [reflexivity|].
  intros H. apply andb_prop in H as [H1 H2]. rewrite H1. auto.
Qed.

Lemma skip_ws_app (s w : string) :
  all_ws w = true ->
  skip_ws (s ++ w) = match skip_ws s with
                     | EmptyString => EmptyString
                     | t => t ++ w
                     end.
Proof.
  intros Hw. induction s as [|c s IH]; simpl.
  - now apply skip_ws_all.
  - destruct (json_ws c); [exact IH | reflexivity].
Qed.

Lemma skip_ws_app_ws (w s : string) : all_ws w = true -> skip_ws (w ++ s) = skip_ws s.
Proof.
  induction w as [|c w IH]; simpl; [reflexivity|].
  intros H. apply andb_prop in H as [H1 H2]. rewrite H1. auto.
Qed.

Lemma cons_code_rest (x : N) (w : string) (o : option (list N * string)) :
  cons_code x (omap_rest w o) = omap_rest w (cons_code x o).
Proof. destruct o as [[? ?]|]; reflexivity. Qed.

Lemma scan_chars_ws (m : smode) (w : string) : all_ws w = true -> scan_chars m w = None.
Proof.
  revert m; induction w as [|c w IH]; intros m H; [reflexivity|].
  rewrite all_ws_cons in H. apply andb_prop in H as [H1 H2].
  apply json_ws_cases in H1.
  destruct H1 as [->|[->|[->| ->]]]; destruct m as [| |k acc]; simpl;
    rewrite ?(IH _ H2); reflexivity.
Qed.

Lemma scan_chars_frame (m : smode) (s w : string) :
  all_ws w = true -> scan_chars m (s ++ w) = omap_rest w (scan_chars m s).
Proof.
  intros Hw. revert m; induction s as [|c s IH]; intros m.
  - simpl. now rewrite scan_chars_ws.
  - simpl. destruct m as [| |k acc].
    + destruct (N_of_ascii c =? 34)%N; [reflexivity|].
      destruct (N_of_ascii c =? 92)%N; [apply IH|].
      destruct (N_of_ascii c <? 32)%N; [reflexivity|].
      now rewrite IH, cons_code_rest.
    + destruct (simple_escape (N_of_ascii c)).
      * now rewrite IH, cons_code_rest.
      * destruct (N_of_ascii c =? 117)%N; [apply IH | reflexivity].
    + destruct (hex_val c); [|reflexivity].
      destruct k as [|[|k]]; rewrite ?IH, ?cons_code_rest; reflexivity.
Qed.

Lemma scan_string_frame (s w : string) :
  all_ws w = true -> scan_string (s ++ w) = omap_rest w (scan_string s).
Proof.
  intros Hw. unfold scan_string. rewrite scan_chars_frame by exact Hw.
  destruct (scan_chars SNormal s) as [[? ?]|]; reflexivity.
Qed.

Lemma json_ws_not_digit (c : ascii) : json_ws c = true -> is_digit c = false.
Proof. intros H. apply json_ws_cases in H. now destruct H as [->|[->|[->| ->]]]. Qed.

(** The first character of a non-empty blank text. *)
Definition head_ws (w : string) : Prop :=
  match w with
  | String c _ => json_ws c = true
  | EmptyString => True
  end.

Lemma all_ws_head (w : string) : all_ws w = true -> head_ws w.
Proof. destruct w as [|c w]; simpl; [trivial|]. now intros [H _]%andb_prop. Qed.

Lemma span_digits_frame (s w : string) :
  all_ws w = true ->
  span_digits (s ++ w) = (fst (span_digits s), snd (span_digits s) ++ w).
Proof.
  intros Hw. induction s as [|c s IH]; simpl.
  - destruct w as [|c w]; [reflexivity|].
    apply all_ws_head in Hw. simpl in Hw |- *. now rewrite json_ws_not_digit.
  - destruct (is_digit c); [|reflexivity].
    rewrite IH. destruct (span_digits s); reflexivity.
Qed.

Lemma span_digits_ws (w : string) : all_ws w = true -> span_digits w = (EmptyString, w).
Proof.
  intros Hw. pose proof (span_digits_frame EmptyString w Hw) as E. exact E.
Qed.

Lemma scan_int_part_frame (s w : string) :
  all_ws w = true -> scan_int_part (s ++ w) = omap_rest w (scan_int_part s).
Proof.
  intros Hw. pose proof (all_ws_head _ Hw) as Hh. unfold scan_int_part.
  destruct s as [|c s]; simpl.
  - destruct w as [|c w]; [reflexivity|]. simpl in Hh.
    apply json_ws_cases in Hh. now destruct Hh as [->|[->|[->| ->]]].
  - destruct (Ascii.eqb c "-").
    + destruct s as [|d s]; simpl.
      * destruct w as [|d w]; [reflexivity|]. simpl in Hh.
        apply json_ws_cases in Hh. now destruct Hh as [->|[->|[->| ->]]].
      * destruct (Ascii.eqb d "0"); [reflexivity|].
        destruct (is_digit d); [|reflexivity].
        rewrite span_digits_frame by exact Hw. destruct (span_digits s); reflexivity.
    + destruct (Ascii.eqb c "0"); [reflexivity|].
      destruct (is_digit c); [|reflexivity].
      rewrite span_digits_frame by exact Hw. destruct (span_digits s); reflexivity.
Qed.

Lemma scan_frac_frame (s w : string) :
  all_ws w = true -> scan_frac (s ++ w) = (fst (scan_frac s), snd (scan_frac s) ++ w).
Proof.
  intros Hw. pose proof (all_ws_head _ Hw) as Hh. destruct s as [|c t]; simpl.
  - destruct w as [|c w]; [reflexivity|]. simpl in Hh.
    apply json_ws_cases in Hh. now destruct Hh as [->|[->|[->| ->]]].
  - destruct (Ascii.eqb c "."); [|reflexivity].
    rewrite span_digits_frame by exact Hw.
    destruct (span_digits t) as [[|d ds] r]; reflexivity.
Qed.

Lemma scan_exp_frame (s w : string) :
  all_ws w = true -> scan_exp (s ++ w) = (fst (scan_exp s), snd (scan_exp s) ++ w).
Proof.
  intros Hw. pose proof (all_ws_head _ Hw) as Hh. destruct s as [|e t]; simpl.
  - destruct w as [|c w]; [reflexivity|]. simpl in Hh.
    apply json_ws_cases in Hh. now destruct Hh as [->|[->|[->| ->]]].
  - destruct (Ascii.eqb e "e" || Ascii.eqb e "E"); [|reflexivity].
    destruct t as [|c u]; simpl.
    + destruct w as [|c w]; [reflexivity|]. simpl in Hh.
      apply json_ws_cases in Hh. now destruct Hh as [->|[->|[->| ->]]].
    + destruct (Ascii.eqb c "+" || Ascii.eqb c "-").
      * rewrite span_digits_frame by exact Hw.
        destruct (span_digits u) as [[|d ds] r]; reflexivity.
      * change (String c (u ++ w)) with (String c u ++ w).
        rewrite span_digits_frame by exact Hw.
        destruct (span_digits (String c u)) as [[|d ds] r]; reflexivity.
Qed.

Lemma scan_number_frame (s w : string) :
  all_ws w = true -> scan_number (s ++ w) = omap_rest w (scan_number s).
Proof.
  intros Hw. unfold scan_number. rewrite scan_int_part_frame by exact Hw.
  destruct (scan_int_part s) as [[i r1]|]; [|reflexivity]. simpl.
  rewrite scan_frac_frame by exact Hw. destruct (scan_frac r1) as [f r2]. simpl.
  rewrite scan_exp_frame by exact Hw. destruct (scan_exp r2) as [e r3]. reflexivity.
Qed.

Definition no_ws (lit : string) : bool :=
  forallb (fun c => negb (json_ws c)) (list_ascii_of_string lit).

Lemma prefix_lit_frame (lit s w : string) :
  no_ws lit = true -> all_ws w = true -> prefix lit (s ++ w) = prefix lit s.
Proof.
  intros Hl Hw. revert s; induction lit as [|a lit IH]; intros s.
  - destruct (s ++ w), s; reflexivity.
  - simpl in Hl. apply andb_prop in Hl as [Ha Hl].
    destruct s as [|b s]; simpl.
    + destruct w as [|b w]; [reflexivity|]. simpl.
      destruct (ascii_dec a b) as [->|]; [|reflexivity].
      simpl in Hw. apply andb_prop in Hw as [Hb _]. now rewrite Hb in Ha.
    + destruct (ascii_dec a b); [apply (IH Hl) | reflexivity].
Qed.

Lemma drop_lit (lit s w : string) (k : nat) :
  k = String.length lit -> prefix lit s = true -> drop k (s ++ w) = drop k s ++ w.
Proof. intros -> H. apply drop_app, prefix_length, H. Qed.

Lemma scan_atom_frame (s w : string) :
  all_ws w = true -> scan_atom (s ++ w) = omap_rest w (scan_atom s).
Proof.
  intros Hw. unfold scan_atom.
  rewrite !prefix_lit_frame by (reflexivity || exact Hw).
  destruct (prefix "null" s) eqn:E; [now rewrite (drop_lit "null") by auto|].
  destruct (prefix "true" s) eqn:E2; [now rewrite (drop_lit "true") by auto|].
  destruct (prefix "false" s) eqn:E3; [now rewrite (drop_lit "false") by auto|].
  rewrite scan_number_frame by exact Hw.
  destruct (scan_number s) as [[v r]|]; [reflexivity|]. cbn [omap_rest].
  destruct (prefix "NaN" s) eqn:E4; [now rewrite (drop_lit "NaN") by auto|].
  destruct (prefix "Infinity" s) eqn:E5; [now rewrite (drop_lit "Infinity") by auto|].
  destruct (prefix "-Infinity" s) eqn:E6; [now rewrite (drop_lit "-Infinity") by auto|].
  reflexivity.
Qed.

Lemma scan_atom_head (c : ascii) (t : string) (x : json * string) :
  scan_atom (String c t) = Some x -> py_isspace c = false.
Proof.
  intros H. destruct (py_isspace c) eqn:E; [|reflexivity]. exfalso.
  ascii_cases c; vm_compute in E; try discriminate E; cbn in H; discriminate H.
Qed.

Lemma scan_value_eq (n : nat) (c : ascii) (s : string) :
  scan_value (S n) (String c s) =
  if Ascii.eqb c quote_char then
    match scan_string s with Some (xs, r) => Some (JStr xs, r) | None => None end
  else if Ascii.eqb c "{" then
    match skip_ws s with
    | String d r =>
        if Ascii.eqb d "}" then Some (JObj [], r)
        else if Ascii.eqb d quote_char then scan_members n [] r else None
    | EmptyString => None
    end
  else if Ascii.eqb c "[" then
    match skip_ws s with
    | String d r =>
        if Ascii.eqb d "]" then Some (JArr [], r) else scan_elements n [] (String d r)
    | EmptyString => None
    end
  else scan_atom (String c s).
Proof. reflexivity. Qed.

Lemma scan_value_head (n : nat) (c : ascii) (t : string) (x : json * string) :
  scan_value n (String c t) = Some x -> py_isspace c = false.
Proof.
  destruct n as [|n]; [discriminate|]. rewrite scan_value_eq. intros H.
  destruct (Ascii.eqb c quote_char) eqn:E1.
  { apply Ascii.eqb_eq in E1. now subst. }
  destruct (Ascii.eqb c "{") eqn:E2.
  { apply Ascii.eqb_eq in E2. now subst. }
  destruct (Ascii.eqb c "[") eqn:E3.
  { apply Ascii.eqb_eq in E3. now subst. }
  exact (scan_atom_head _ _ _ H).
Qed.

Lemma scan_value_empty (n : nat) : scan_value n EmptyString = None.
Proof. destruct n; reflexivity. Qed.

Lemma scan_value_ws (n : nat) (c : ascii) (t : string) :
  json_ws c = true -> scan_value n (String c t) = None.
Proof.
  intros Hc. destruct (scan_value n (String c t)) as [x|] eqn:E; [|reflexivity].
  apply scan_value_head in E. now rewrite (json_ws_py_isspace _ Hc) in E.
Qed.

Lemma scan_elements_empty (n : nat) (acc : list json) :
  scan_elements n acc EmptyString = None.
Proof. destruct n; simpl; [reflexivity|]. now rewrite scan_value_empty. Qed.

Lemma scan_members_eq (n : nat) (acc : list (list N * json)) (s : string) :
  scan_members (S n) acc s =
  match scan_string s with
  | None => None
  | Some (key, r) =>
      match skip_ws r with
      | String d r1 =>
          if Ascii.eqb d ":" then
            match scan_value n (skip_ws r1) with
            | None => None
            | Some (v, r2) =>
                match skip_ws r2 with
                | String e r3 =>
                    if Ascii.eqb e "}" then Some (JObj (rev ((key, v) :: acc)), r3)
                    else if Ascii.eqb e "," then
                      match skip_ws r3 with
                      | String q r4 =>
                          if Ascii.eqb q quote_char
                          then scan_members n ((key, v) :: acc) r4 else None
                      | EmptyString => None
                      end
                    else None
                | EmptyString => None
                end
            end
          else None
      | EmptyString => None
      end
  end.
Proof. reflexivity. Qed.

Lemma scan_elements_eq (n : nat) (acc : list json) (s : string) :
  scan_elements (S n) acc s =
  match scan_value n s with
  | None => None
  | Some (v, r) =>
      match skip_ws r with
      | String e r1 =>
          if Ascii.eqb e "]" then Some (JArr (rev (v :: acc)), r1)
          else if Ascii.eqb e "," then scan_elements n (v :: acc) (skip_ws r1)
          else None
      | EmptyString => None
      end
  end.
Proof. reflexivity. Qed.

(** Blanks appended after the text a scanner reads are left to the rest. *)
Lemma scan_frame (w : string) (Hw : all_ws w = true) (n : nat) :
  (forall s, scan_value n (s ++ w) = omap_rest w (scan_value n s)) /\
  (forall acc s, scan_members n acc (s ++ w) = omap_rest w (scan_members n acc s)) /\
  (forall acc s, scan_elements n acc (s ++ w) = omap_rest w (scan_elements n acc s)).
Proof.
  induction n as [|n IH]; [repeat split; reflexivity|].
  destruct IH as (IHv & IHm & IHe).
  assert (Hafter : forall x, scan_value n (skip_ws (x ++ w))
                             = omap_rest w (scan_value n (skip_ws x))).
  { intros x. rewrite skip_ws_app by exact Hw.
    destruct (skip_ws x) as [|d y]; cbv iota beta; [now rewrite scan_value_empty | apply IHv]. }
  repeat split.
  - intros [|c s].
    + simpl (EmptyString ++ w). rewrite scan_value_empty.
      destruct w as [|c w]; [reflexivity|].
      apply scan_value_ws. apply (all_ws_head _ Hw).
    + change (String c s ++ w) with (String c (s ++ w)). cbv iota beta. rewrite !scan_value_eq.
      destruct (Ascii.eqb c quote_char).
      { rewrite scan_string_frame by exact Hw.
        destruct (scan_string s) as [[xs r]|]; reflexivity. }
      destruct (Ascii.eqb c "{").
      { rewrite skip_ws_app by exact Hw. destruct (skip_ws s) as [|d r]; cbv iota beta; [reflexivity|].
        change (String d r ++ w) with (String d (r ++ w)). cbv iota beta.
        destruct (Ascii.eqb d "}"); [reflexivity|].
        destruct (Ascii.eqb d quote_char); [apply IHm | reflexivity]. }
      destruct (Ascii.eqb c "[").
      { rewrite skip_ws_app by exact Hw. destruct (skip_ws s) as [|d r]; cbv iota beta; [reflexivity|].
        change (String d r ++ w) with (String d (r ++ w)). cbv iota beta.
        destruct (Ascii.eqb d "]"); [reflexivity|].
        change (String d (r ++ w)) with (String d r ++ w). apply IHe. }
      change (String c (s ++ w)) with (String c s ++ w). apply scan_atom_frame, Hw.
  - intros acc s. rewrite !scan_members_eq, scan_string_frame by exact Hw.
    destruct (scan_string s) as [[key r]|]; [|reflexivity]. cbn [omap_rest].
    rewrite skip_ws_app by exact Hw. destruct (skip_ws r) as [|d r1]; cbv iota beta; [reflexivity|].
    change (String d r1 ++ w) with (String d (r1 ++ w)). cbv iota beta.
    destruct (Ascii.eqb d ":"); [|reflexivity].
    rewrite Hafter. destruct (scan_value n (skip_ws r1)) as [[v r2]|]; [|reflexivity].
    cbn [omap_rest].
    rewrite skip_ws_app by exact Hw. destruct (skip_ws r2) as [|e r3]; cbv iota beta; [reflexivity|].
    change (String e r3 ++ w) with (String e (r3 ++ w)). cbv iota beta.
    destruct (Ascii.eqb e "}"); [reflexivity|].
    destruct (Ascii.eqb e ","); [|reflexivity].
    rewrite skip_ws_app by exact Hw. destruct (skip_ws r3) as [|q r4]; cbv iota beta; [reflexivity|].
    change (String q r4 ++ w) with (String q (r4 ++ w)). cbv iota beta.
    destruct (Ascii.eqb q quote_char); [apply IHm | reflexivity].
  - intros acc s. rewrite !scan_elements_eq, IHv.
    destruct (scan_value n s) as [[v r]|]; [|reflexivity]. cbn [omap_rest].
    rewrite skip_ws_app by exact Hw. destruct (skip_ws r) as [|e r1]; cbv iota beta; [reflexivity|].
    change (String e r1 ++ w) with (String e (r1 ++ w)). cbv iota beta.
    destruct (Ascii.eqb e "]"); [reflexivity|].
    destruct (Ascii.eqb e ","); [|reflexivity].
    rewrite skip_ws_app by exact Hw. destruct (skip_ws r1) as [|d y]; cbv iota beta.
    + now rewrite scan_elements_empty.
    + apply IHe.
Qed.

(** [s] is [p ++ String c r] for a character [c] with [P c]: the scan of
    [s] that leaves [r] ended on such a character. *)
Definition ends_with (P : ascii -> bool) (s r : string) : Prop :=
  exists p c, s = p ++ String c r /\ P c = true.

Definition suffix_of (r s : string) : Prop := exists p, s = p ++ r.

(** What can end a JSON value: neither blank nor a backtick. *)
Definition last_ok (c : ascii) : bool :=
  negb (py_isspace c) && negb (Ascii.eqb c "`").

Lemma suffix_refl (s : string) : suffix_of s s.
Proof. now exists EmptyString. Qed.

Lemma suffix_trans (a b c : string) : suffix_of a b -> suffix_of b c -> suffix_of a c.
Proof. intros [p ->] [q ->]. exists (q ++ p). now rewrite sapp_assoc. Qed.

Lemma ends_suffix (P : ascii -> bool) (s r : string) : ends_with P s r -> suffix_of r s.
Proof. intros (p & c & -> & _). exists (p ++ String c EmptyString). now rewrite sapp_assoc. Qed.

Lemma suffix_ends (P : ascii -> bool) (x s r : string) :
  suffix_of x s -> ends_with P x r -> ends_with P s r.
Proof.
  intros [q ->] (p & c & -> & Hc). exists (q ++ p), c. split; [|exact Hc].
  now rewrite sapp_assoc.
Qed.

Lemma ends_with_mono (P Q : ascii -> bool) (s r : string) :
  (forall c, P c = true -> Q c = true) -> ends_with P s r -> ends_with Q s r.
Proof. intros H (p & c & E & Hc). exists p, c. auto. Qed.

Lemma skip_ws_suffix (s : string) : suffix_of (skip_ws s) s.
Proof.
  induction s as [|c s IH]; simpl; [apply suffix_refl|].
  destruct (json_ws c); [|apply suffix_refl].
  destruct IH as [p E]. exists (String c p). simpl. now rewrite <- E.
Qed.

Lemma skip_ws_char (P : ascii -> bool) (x y : string) (c : ascii) :
  skip_ws x = String c y -> P c = true -> ends_with P x y.
Proof.
  intros E Hc. apply (suffix_ends _ (String c y)).
  - rewrite <- E. apply skip_ws_suffix.
  - now exists EmptyString, c.
Qed.

Lemma scan_chars_end (m : smode) (s : string) (xs : list N) (r : string) :
  scan_chars m s = Some (xs, r) -> ends_with (fun c => Ascii.eqb c quote_char) s r.
Proof.
  revert m xs; induction s as [|c s IH]; intros m xs H; [discriminate|].
  assert (Hstep : forall m' xs', scan_chars m' s = Some (xs', r) ->
                                  ends_with (fun c => Ascii.eqb c quote_char) (String c s) r).
  { intros m' xs' H'. apply (suffix_ends _ s); [|exact (IH _ _ H')].
    exists (String c EmptyString). reflexivity. }
  assert (Hcons : forall x, cons_code x (scan_chars SNormal s) = Some (xs, r) ->
                            ends_with (fun c => Ascii.eqb c quote_char) (String c s) r).
  { intros x Hx. destruct (scan_chars SNormal s) as [[ys r']|] eqn:E; [|discriminate].
    injection Hx as _ ->. exact (Hstep _ _ E). }
  simpl in H. destruct m as [| |k acc].
  - destruct (N_of_ascii c =? 34)%N eqn:E34.
    + injection H as _ ->. exists EmptyString, c. split; [reflexivity|].
      apply N.eqb_eq in E34. apply Ascii.eqb_eq.
      rewrite <- (ascii_N_embedding c), E34. reflexivity.
    + destruct (N_of_ascii c =? 92)%N; [exact (Hstep _ _ H)|].
      destruct (N_of_ascii c <? 32)%N; [discriminate|]. exact (Hcons _ H).
  - destruct (simple_escape (N_of_ascii c)); [exact (Hcons _ H)|].
    destruct (N_of_ascii c =? 117)%N; [exact (Hstep _ _ H)|discriminate].
  - destruct (hex_val c); [|discriminate].
    destruct k as [|[|k]]; [exact (Hcons _ H) | exact (Hcons _ H) | exact (Hstep _ _ H)].
Qed.

Lemma scan_string_end (s : string) (xs : list N) (r : string) :
  scan_string s = Some (xs, r) -> ends_with last_ok s r.
Proof.
  unfold scan_string. destruct (scan_chars SNormal s) as [[ys r']|] eqn:E; [|discriminate].
  intros H. injection H as _ ->.
  apply (ends_with_mono (fun c => Ascii.eqb c quote_char)); [|exact (scan_chars_end _ _ _ _ E)].
  intros c Hc. apply Ascii.eqb_eq in Hc. now subst.
Qed.

Lemma span_digits_empty (s r : string) : span_digits s = (EmptyString, r) -> r = s.
Proof.
  destruct s as [|c s]; simpl; [congruence|].
  destruct (is_digit c); [destruct (span_digits s); discriminate | congruence].
Qed.

Lemma span_digits_end (s d r : string) (a : ascii) :
  span_digits s = (String a d, r) -> ends_with is_digit s r.
Proof.
  revert a d; induction s as [|c s IH]; intros a d H; simpl in H; [discriminate|].
  destruct (is_digit c) eqn:Ec; [|discriminate].
  destruct (span_digits s) as [[|a' d'] r'] eqn:E; injection H as <- <- ->.
  - apply span_digits_empty in E as ->. now exists EmptyString, c.
  - apply (suffix_ends _ s); [now exists (String c EmptyString) | exact (IH _ _ eq_refl)].
Qed.

(** A run of digits after [c]: the scan ends on [c] or on the last digit. *)
Lemma digits_after (c : ascii) (t r : string) :
  is_digit c = true -> snd (span_digits t) = r -> ends_with is_digit (String c t) r.
Proof.
  intros Hc <-. destruct (span_digits t) as [[|a d] r'] eqn:Et; simpl.
  - apply span_digits_empty in Et as ->. now exists EmptyString, c.
  - apply (suffix_ends _ t); [now exists (String c EmptyString) | exact (span_digits_end _ _ _ _ Et)].
Qed.

Lemma int_digits (c : ascii) (t sign i r : string) :
  (if Ascii.eqb c "0" then Some (sign ++ "0", t)
   else if is_digit c then let (d, r') := span_digits t in Some (sign ++ String c d, r')
   else None) = Some (i, r) -> ends_with is_digit (String c t) r.
Proof.
  intros H. destruct (Ascii.eqb c "0") eqn:E0.
  - injection H as _ <-. apply Ascii.eqb_eq in E0. subst. now exists EmptyString, "0"%char.
  - destruct (is_digit c) eqn:Ed; [|discriminate].
    destruct (span_digits t) as [d r'] eqn:Et. injection H as _ <-.
    apply digits_after; [exact Ed | now rewrite Et].
Qed.

Lemma scan_int_part_end (s i r : string) :
  scan_int_part s = Some (i, r) -> ends_with is_digit s r.
Proof.
  unfold scan_int_part. destruct s as [|c t]; [discriminate|].
  destruct (Ascii.eqb c "-") eqn:Em; cbv iota beta.
  - destruct t as [|d u]; [discriminate|]. intros H.
    apply (suffix_ends _ (String d u)); [now exists (String c EmptyString)|].
    exact (int_digits _ _ _ _ _ H).
  - exact (int_digits _ _ _ _ _).
Qed.

(** The scan that continues from [r1] to [r2] either read nothing or ended
    on a character with [P]. *)
Definition ends_or_same (P : ascii -> bool) (s r : string) : Prop :=
  r = s \/ ends_with P s r.

Lemma ends_chain (P : ascii -> bool) (s r1 r2 : string) :
  ends_with P s r1 -> ends_or_same P r1 r2 -> ends_with P s r2.
Proof.
  intros H [->|H2]; [exact H|]. exact (suffix_ends _ _ _ _ (ends_suffix _ _ _ H) H2).
Qed.

Lemma scan_frac_end (s f r : string) :
  scan_frac s = (f, r) -> ends_or_same is_digit s r.
Proof.
  unfold scan_frac. destruct s as [|c t]; [intros H; injection H as _ <-; now left|].
  destruct (Ascii.eqb c ".") eqn:Ed; [|intros H; injection H as _ <-; now left].
  destruct (span_digits t) as [[|a d] r'] eqn:Et; intros H; injection H as _ <-; [now left|].
  right. apply (suffix_ends _ t); [now exists (String c EmptyString)|].
  exact (span_digits_end _ _ _ _ Et).
Qed.

Lemma scan_exp_end (s x r : string) :
  scan_exp s = (x, r) -> ends_or_same is_digit s r.
Proof.
  unfold scan_exp. destruct s as [|e t]; [intros H; injection H as _ <-; now left|].
  destruct (Ascii.eqb e "e" || Ascii.eqb e "E"); [|intros H; injection H as _ <-; now left].
  assert (Hgen : forall sg t1, suffix_of t1 (String e t) ->
             match span_digits t1 with
             | (EmptyString, _) => (EmptyString, String e t)
             | (d, r0) => (String e (sg ++ d), r0) end = (x, r) ->
             ends_or_same is_digit (String e t) r).
  { intros sg t1 Hs H. destruct (span_digits t1) as [[|a d] r'] eqn:Et;
      injection H as _ <-; [now left|].
    right. exact (suffix_ends _ _ _ _ Hs (span_digits_end _ _ _ _ Et)). }
  destruct t as [|c u]; cbv iota beta.
  - apply (Hgen EmptyString EmptyString). now exists (String e EmptyString).
  - destruct (Ascii.eqb c "+" || Ascii.eqb c "-"); cbv iota beta.
    + apply (Hgen (String c EmptyString) u). now exists (String e (String c EmptyString)).
    + apply (Hgen EmptyString (String c u)). now exists (String e EmptyString).
Qed.

Lemma scan_number_end (s : string) (v : json) (r : string) :
  scan_number s = Some (v, r) -> ends_with is_digit s r.
Proof.
  unfold scan_number. destruct (scan_int_part s) as [[i r1]|] eqn:E1; [|discriminate].
  destruct (scan_frac r1) as [f r2] eqn:E2. destruct (scan_exp r2) as [x r3] eqn:E3.
  intros H. injection H as _ <-.
  apply (ends_chain _ _ r2); [|exact (scan_exp_end _ _ _ E3)].
  apply (ends_chain _ _ r1); [exact (scan_int_part_end _ _ _ E1) | exact (scan_frac_end _ _ _ E2)].
Qed.

Lemma digit_last_ok (c : ascii) : is_digit c = true -> last_ok c = true.
Proof. ascii_cases c; first [reflexivity | discriminate]. Qed.

Lemma lit_end (lit s : string) :
  prefix lit s = true -> ends_with last_ok lit EmptyString ->
  ends_with last_ok s (drop (String.length lit) s).
Proof.
  intros H (p & c & E & Hc). destruct (prefix_app_inv _ _ H) as [t ->].
  rewrite drop_app_exact. exists p, c. split; [|exact Hc].
  rewrite E, sapp_assoc. reflexivity.
Qed.

Lemma scan_atom_end (s : string) (v : json) (r : string) :
  scan_atom s = Some (v, r) -> ends_with last_ok s r.
Proof.
  unfold scan_atom.
  destruct (prefix "null" s) eqn:E1.
  { intros H. injection H as _ <-. apply (lit_end "null"); [exact E1 | exists "nul", "l"%char; auto]. }
  destruct (prefix "true" s) eqn:E2.
  { intros H. injection H as _ <-. apply (lit_end "true"); [exact E2 | exists "tru", "e"%char; auto]. }
  destruct (prefix "false" s) eqn:E3.
  { intros H. injection H as _ <-. apply (lit_end "false"); [exact E3 | exists "fals", "e"%char; auto]. }
  destruct (scan_number s) as [[v' r']|] eqn:E4.
  { intros H. injection H as _ <-.
    exact (ends_with_mono _ _ _ _ digit_last_ok (scan_number_end _ _ _ E4)). }
  destruct (prefix "NaN" s) eqn:E5.
  { intros H. injection H as _ <-. apply (lit_end "NaN"); [exact E5 | exists "Na", "N"%char; auto]. }
  destruct (prefix "Infinity" s) eqn:E6.
  { intros H. injection H as _ <-.
    apply (lit_end "Infinity"); [exact E6 | exists "Infinit", "y"%char; auto]. }
  destruct (prefix "-Infinity" s) eqn:E7; [|discriminate].
  intros H. injection H as _ <-.
  apply (lit_end "-Infinity"); [exact E7 | exists "-Infinit", "y"%char; auto].
Qed.

(** Each scanner that succeeds has consumed a last character that is
    neither blank nor a backtick. *)
Lemma scan_end (n : nat) :
  (forall s v r, scan_value n s = Some (v, r) -> ends_with last_ok s r) /\
  (forall acc s v r, scan_members n acc s = Some (v, r) -> ends_with last_ok s r) /\
  (forall acc s v r, scan_elements n acc s = Some (v, r) -> ends_with last_ok s r).
Proof.
  induction n as [|n IH]; [repeat split; discriminate|].
  destruct IH as (IHv & IHm & IHe). split; [|split].
  - intros [|c s] v r H; [discriminate|]. rewrite scan_value_eq in H.
    assert (Hs : suffix_of s (String c s)) by now exists (String c EmptyString).
    destruct (Ascii.eqb c quote_char).
    { destruct (scan_string s) as [[xs r']|] eqn:E; [|discriminate]. injection H as _ <-.
      exact (suffix_ends _ _ _ _ Hs (scan_string_end _ _ _ E)). }
    destruct (Ascii.eqb c "{").
    { pose proof (skip_ws_suffix s) as Hk.
      destruct (skip_ws s) as [|d r0] eqn:Ek; [discriminate|].
      destruct (Ascii.eqb d "}") eqn:Ed.
      - injection H as _ <-. apply (suffix_ends _ s); [exact Hs|].
        apply (skip_ws_char _ _ _ d Ek). apply Ascii.eqb_eq in Ed. now subst.
      - destruct (Ascii.eqb d quote_char); [|discriminate].
        apply (suffix_ends _ r0); [|exact (IHm _ _ _ _ H)].
        apply (suffix_trans _ (String d r0)); [now exists (String d EmptyString)|].
        exact (suffix_trans _ _ _ Hk Hs). }
    destruct (Ascii.eqb c "[").
    { pose proof (skip_ws_suffix s) as Hk.
      destruct (skip_ws s) as [|d r0] eqn:Ek; [discriminate|].
      destruct (Ascii.eqb d "]") eqn:Ed.
      - injection H as _ <-. apply (suffix_ends _ s); [exact Hs|].
        apply (skip_ws_char _ _ _ d Ek). apply Ascii.eqb_eq in Ed. now subst.
      - apply (suffix_ends _ (String d r0)); [|exact (IHe _ _ _ _ H)].
        exact (suffix_trans _ _ _ Hk Hs). }
    exact (scan_atom_end _ _ _ H).
  - intros acc s v r H. rewrite scan_members_eq in H.
    destruct (scan_string s) as [[key r0]|] eqn:E0; [|discriminate].
    pose proof (ends_suffix _ _ _ (scan_string_end _ _ _ E0)) as S0.
    pose proof (skip_ws_suffix r0) as S1.
    destruct (skip_ws r0) as [|d r1] eqn:E1; [discriminate|].
    destruct (Ascii.eqb d ":"); [|discriminate].
    assert (S2 : suffix_of (skip_ws r1) s).
    { apply (suffix_trans _ r1); [apply skip_ws_suffix|].
      apply (suffix_trans _ (String d r1)); [now exists (String d EmptyString)|].
      exact (suffix_trans _ _ _ S1 S0). }
    destruct (scan_value n (skip_ws r1)) as [[v' r2]|] eqn:E2; [|discriminate].
    pose proof (suffix_ends _ _ _ _ S2 (IHv _ _ _ E2)) as H2.
    pose proof (skip_ws_suffix r2) as S3.
    destruct (skip_ws r2) as [|e r3] eqn:E3; [discriminate|].
    destruct (Ascii.eqb e "}") eqn:Ee.
    { injection H as _ <-. apply (ends_chain _ _ r2); [exact H2|]. right.
      apply (skip_ws_char _ _ _ e E3). apply Ascii.eqb_eq in Ee. now subst. }
    destruct (Ascii.eqb e ","); [|discriminate].
    pose proof (skip_ws_suffix r3) as S4.
    destruct (skip_ws r3) as [|q r4] eqn:E4; [discriminate|].
    destruct (Ascii.eqb q quote_char); [|discriminate].
    apply (suffix_ends _ r4); [|exact (IHm _ _ _ _ H)].
    apply (suffix_trans _ r2); [|exact (ends_suffix _ _ _ H2)].
    apply (suffix_trans _ (String q r4)); [now exists (String q EmptyString)|].
    apply (suffix_trans _ r3); [exact S4|].
    apply (suffix_trans _ (String e r3)); [now exists (String e EmptyString)|exact S3].
  - intros acc s v r H. rewrite scan_elements_eq in H.
    destruct (scan_value n s) as [[v' r0]|] eqn:E0; [|discriminate].
    pose proof (IHv _ _ _ E0) as H0.
    pose proof (skip_ws_suffix r0) as S1.
    destruct (skip_ws r0) as [|e r1] eqn:E1; [discriminate|].
    destruct (Ascii.eqb e "]") eqn:Ee.
    { injection H as _ <-. apply (ends_chain _ _ r0); [exact H0|]. right.
      apply (skip_ws_char _ _ _ e E1). apply Ascii.eqb_eq in Ee. now subst. }
    destruct (Ascii.eqb e ","); [|discriminate].
    apply (suffix_ends _ (skip_ws r1)); [|exact (IHe _ _ _ _ H)].
    apply (suffix_trans _ r1); [apply skip_ws_suffix|].
    apply (suffix_trans _ r0); [|exact (ends_suffix _ _ _ H0)].
    apply (suffix_trans _ (String e r1)); [now exists (String e EmptyString)|exact S1].
Qed.

Lemma skip_ws_split (s : string) : exists lws, s = lws ++ skip_ws s /\ all_ws lws = true.
Proof.
  induction s as [|c s IH]; simpl; [now exists EmptyString|].
  destruct (json_ws c) eqn:E.
  - destruct IH as [lws [E1 E2]]. exists (String c lws). split.
    + simpl. now rewrite <- E1.
    + now rewrite all_ws_cons, E, E2.
  - now exists EmptyString.
Qed.

Lemma skip_ws_empty (r : string) : skip_ws r = EmptyString -> all_ws r = true.
Proof.
  induction r as [|c r IH]; [reflexivity|]. cbn [skip_ws]. rewrite all_ws_cons.
  destruct (json_ws c); [auto | discriminate].
Qed.

Lemma count_nonws_app (a b : string) : count_nonws (a ++ b) = count_nonws a + count_nonws b.
Proof. induction a as [|c a IH]; simpl; [reflexivity|]. destruct (json_ws c); rewrite IH; lia. Qed.

Lemma count_nonws_ws (w : string) : all_ws w = true -> count_nonws w = 0.
Proof.
  induction w as [|c w IH]; simpl; [reflexivity|].
  intros H. apply andb_prop in H as [H1 H2]. rewrite H1. auto.
Qed.

Lemma app_empty_l (a b : string) : a ++ b = b -> a = EmptyString.
Proof.
  intros H. apply (f_equal String.length) in H. rewrite slength_app in H.
  destruct a; simpl in *; [reflexivity | lia].
Qed.

Lemma py_json_ws (c : ascii) : py_isspace c = false -> json_ws c = false.
Proof. intros H. destruct (json_ws c) eqn:E; [|reflexivity]. now rewrite (json_ws_py_isspace _ E) in H. Qed.

(** A text that [json.loads] accepts is blanks, a core that starts with a
    non-blank and ends on a character that is neither blank nor a
    backtick, and blanks; the core alone decodes to the same value. *)
Lemma json_core (J : string) (v : json) :
  json_loads J = Some v ->
  exists lws p c r,
    J = lws ++ (p ++ String c EmptyString) ++ r /\ all_ws lws = true /\ all_ws r = true /\
    last_ok c = true /\ starts_nonspace (p ++ String c EmptyString) = true /\
    json_loads (p ++ String c EmptyString) = Some v.
Proof.
  unfold json_loads at 1. intros H.
  destruct (scan_value (S (S (2 * count_nonws J))) (skip_ws J)) as [[v0 r]|] eqn:E;
    [|discriminate].
  destruct (skip_ws r) eqn:Er; [|discriminate]. injection H as ->.
  apply skip_ws_empty in Er.
  destruct (proj1 (scan_end _) _ _ _ E) as (p & c & Ex & Hc).
  destruct (skip_ws_split J) as [lws [EJ Hl]].
  assert (Hhead : starts_nonspace (skip_ws J) = true).
  { destruct (skip_ws J) as [|c0 t0]; [now rewrite scan_value_empty in E|].
    simpl. now rewrite (scan_value_head _ _ _ _ E). }
  assert (Hcore : skip_ws J = (p ++ String c EmptyString) ++ r) by now rewrite sapp_assoc.
  assert (Hsn : starts_nonspace (p ++ String c EmptyString) = true).
  { rewrite Hcore in Hhead. destruct p as [|c1 p]; [|exact Hhead].
    simpl. unfold last_ok in Hc. apply andb_prop in Hc as [Hc _].
    now destruct (py_isspace c). }
  exists lws, p, c, r. repeat split; auto.
  - rewrite EJ at 1. now rewrite Hcore.
  - unfold json_loads.
    set (core := p ++ String c EmptyString) in *.
    assert (Hcount : count_nonws J = count_nonws core).
    { rewrite EJ, Hcore, !count_nonws_app, (count_nonws_ws _ Hl), (count_nonws_ws _ Er). lia. }
    assert (Hsk : skip_ws core = core).
    { destruct core as [|c1 t1]; [reflexivity|]. simpl in Hsn |- *.
      rewrite py_json_ws; [reflexivity|]. now destruct (py_isspace c1). }
    rewrite Hsk, <- Hcount.
    rewrite Hcore, (proj1 (scan_frame _ Er _)) in E.
    destruct (scan_value (S (S (2 * count_nonws J))) core) as [[v1 r1]|]; [|discriminate].
    cbn [omap_rest] in E. injection E as -> Er1.
    now rewrite (app_empty_l _ _ Er1).
Qed.

End JsonFacts.

Module FormatFacts.
Import Py Templates Json.

Lemma py_format_ok (t : list N) :
  forall k args, template_fields t = Some k -> k <= List.length args ->
  exists p, py_format t args = inr p.
Proof.
  induction t as [t IH] using
    (well_founded_induction (wf_inverse_image _ nat _ (@List.length N) lt_wf)).
  intros k args Ht Hk.
  destruct t as [|c t1]; [exists []; reflexivity|].
  cbn [template_fields] in Ht; cbn [py_format].
  destruct (c =? 123)%N.
  - destruct t1 as [|d t2]; [discriminate|].
    destruct (d =? 123)%N.
    + destruct (IH t2 ltac:(cbn; lia) k args Ht Hk) as [p ->]. eexists; reflexivity.
    + destruct (d =? 125)%N; [|discriminate].
      destruct (template_fields t2) as [k'|] eqn:E; [|discriminate].
      cbn in Ht; injection Ht as <-.
      destruct args as [|a args']; [cbn in Hk; lia|].
      destruct (IH t2 ltac:(cbn; lia) k' args' E ltac:(cbn in Hk; lia)) as [p ->].
      eexists; reflexivity.
  - destruct (c =? 125)%N.
    + destruct t1 as [|d t2]; [discriminate|].
      destruct (d =? 125)%N; [|discriminate].
      destruct (IH t2 ltac:(cbn; lia) k args Ht Hk) as [p ->]. eexists; reflexivity.
    + destruct (IH t1 ltac:(cbn; lia) k args Ht Hk) as [p ->]. eexists; reflexivity.
Qed.

Lemma planner_fields : template_fields (codes job_json_planner) = Some 1.
Proof. vm_compute. reflexivity. Qed.

Lemma unified_fields : template_fields (codes job_unified) = Some 3.
Proof. vm_compute. reflexivity. Qed.

Lemma planner_format (b : list N) :
  exists p, py_format (codes job_json_planner) [b] = inr p.
Proof. apply (py_format_ok _ 1); [exact planner_fields | cbn; lia]. Qed.

Lemma unified_format (a b c : list N) :
  exists p, py_format (codes job_unified) [a; b; c] = inr p.
Proof. apply (py_format_ok _ 3); [exact unified_fields | cbn; lia]. Qed.

End FormatFacts.

Module FlowFacts.
Import Json Py Api Templates Flow.

(** [flow] from an empty log, written out as nested cases. *)
Lemma flow_unfold (str_other : json -> list N) (brand : list N)
    (gt gi : list N -> exn + Response) :
  flow str_other brand gt gi [] =
  match py_format (codes job_json_planner) [brand] with
  | inl e => ([], inl e)
  | inr p0 =>
    match gt p0 with
    | inl e => ([PlanCall p0], inl e)
    | inr r0 =>
      match parse_job (text r0) with
      | inl e => ([PlanCall p0], inl e)
      | inr job =>
        match getitem job "text_swap" with
        | inl e => ([PlanCall p0], inl e)
        | inr a =>
          match getitem job "product_swap" with
          | inl e => ([PlanCall p0], inl e)
          | inr b =>
            match getitem job "edits" with
            | inl e => ([PlanCall p0], inl e)
            | inr c =>
              match py_format (codes job_unified)
                      [py_str str_other a; py_str str_other b; py_str str_other c] with
              | inl e => ([PlanCall p0], inl e)
              | inr p1 =>
                match gi p1 with
                | inl e => ([PlanCall p0; RenderCall p1], inl e)
                | inr r1 =>
                  match gemini_image_result r1 with
                  | inl e => ([PlanCall p0; RenderCall p1], inl e)
                  | inr (out, u1) =>
                    ([PlanCall p0; RenderCall p1],
                     inr (out, {| input_tokens :=
                                    (0 + input_tokens (usage_of r0) + input_tokens u1)%Z;
                                  output_tokens :=
                                    (0 + output_tokens (usage_of r0) + output_tokens u1)%Z |}))
                  end
                end
              end
            end
          end
        end
      end
    end
  end.
Proof.
  unfold flow, bind, lift, api_call, ret, gemini_response_result.
  destruct (py_format (codes job_json_planner) [brand]) as [e|p0]; [reflexivity|].
  destruct (gt p0) as [e|r0]; [reflexivity|].
  destruct (parse_job (text r0)) as [e|job]; [reflexivity|].
  destruct (getitem job "text_swap") as [e|a]; [reflexivity|].
  destruct (getitem job "product_swap") as [e|b]; [reflexivity|].
  destruct (getitem job "edits") as [e|c]; [reflexivity|].
  destruct (py_format (codes job_unified) _) as [e|p1]; [reflexivity|].
  destruct (gi p1) as [e|r1]; [reflexivity|].
  destruct (gemini_image_result r1) as [e|[out u1]]; reflexivity.
Qed.

Lemma image_result_usage (r : Response) out u :
  gemini_image_result r = inr (out, u) -> u = usage_of r.
Proof.
  unfold gemini_image_result.
  destruct (candidates r) as [[|c cs]|]; try discriminate.
  destruct (content c) as [ct|]; try discriminate.
  destruct (parts ct) as [ps|]; try discriminate.
  intros H; injection H as _ <-; reflexivity.
Qed.

(** Every log of [flow] from the empty log is [[]], [[PlanCall p0]] or
    [[PlanCall p0; RenderCall p1]], and a result needs both calls. *)
Lemma flow_success (str_other : json -> list N) brand gt gi log out u :
  flow str_other brand gt gi [] = (log, inr (out, u)) ->
  exists p0 p1 r0 r1 job a b c,
    log = [PlanCall p0; RenderCall p1] /\
    py_format (codes job_json_planner) [brand] = inr p0 /\
    gt p0 = inr r0 /\
    parse_job (text r0) = inr job /\
    getitem job "text_swap" = inr a /\
    getitem job "product_swap" = inr b /\
    getitem job "edits" = inr c /\
    py_format (codes job_unified)
      [py_str str_other a; py_str str_other b; py_str str_other c] = inr p1 /\
    gi p1 = inr r1 /\
    gemini_image_result r1 = inr (out, usage_of r1) /\
    input_tokens u = (input_tokens (usage_of r0) + input_tokens (usage_of r1))%Z /\
    output_tokens u = (output_tokens (usage_of r0) + output_tokens (usage_of r1))%Z.
Proof.
  rewrite flow_unfold.
  destruct (py_format (codes job_json_planner) [brand]) as [e|p0] eqn:E0; [discriminate|].
  destruct (gt p0) as [e|r0] eqn:E1; [discriminate|].
  destruct (parse_job (text r0)) as [e|job] eqn:E2; [discriminate|].
  destruct (getitem job "text_swap") as [e|a] eqn:E3; [discriminate|].
  destruct (getitem job "product_swap") as [e|b] eqn:E4; [discriminate|].
  destruct (getitem job "edits") as [e|c] eqn:E5; [discriminate|].
  destruct (py_format (codes job_unified) _) as [e|p1] eqn:E6; [discriminate|].
  destruct (gi p1) as [e|r1] eqn:E7; [discriminate|].
  destruct (gemini_image_result r1) as [e|[out' u1]] eqn:E8; [discriminate|].
  intros H; injection H as <- <- <-.
  pose proof (image_result_usage _ _ _ E8) as ->.
  exists p0, p1, r0, r1, job, a, b, c.
  repeat split; auto; cbn; lia.
Qed.

(** A [flow] that fails before the render call has logged the planner call only. *)
Lemma flow_plan_failure (str_other : json -> list N) brand gt gi p0 r0 e :
  py_format (codes job_json_planner) [brand] = inr p0 ->
  gt p0 = inr r0 ->
  (parse_job (text r0) = inl e \/
   exists job, parse_job (text r0) = inr job /\
     (getitem job "text_swap" = inl e \/
      (exists a, getitem job "text_swap" = inr a /\ getitem job "product_swap" = inl e) \/
      (exists a b, getitem job "text_swap" = inr a /\ getitem job "product_swap" = inr b /\
                   getitem job "edits" = inl e))) ->
  flow str_other brand gt gi [] = ([PlanCall p0], inl e).
Proof.
  intros H0 H1 H2. rewrite flow_unfold, H0, H1.
  destruct H2 as [H2 | [job [H2 [H3 | [[a [H3 H4]] | [a [b [H3 [H4 H5]]]]]]]]];
    rewrite H2; try rewrite H3; try rewrite H4; try rewrite H5; reflexivity.
Qed.

Lemma fs_lookup_filter path q d :
  String.eqb q path = false ->
  fs_lookup path (filter (fun e => negb (String.eqb (fst e) q)) d) = fs_lookup path d.
Proof.
  intros Hq. induction d as [|[p b] d IH]; [reflexivity|].
  cbn. destruct (String.eqb p q) eqn:Epq; cbn.
  - apply String.eqb_eq in Epq; subst p. rewrite Hq. exact IH.
  - destruct (String.eqb p path); [reflexivity | exact IH].
Qed.

Lemma fs_lookup_write path q b d :
  fs_lookup path (fs_write q b d) =
  if String.eqb q path then Some b else fs_lookup path d.
Proof.
  unfold fs_write. cbn. destruct (String.eqb q path) eqn:E; [reflexivity|].
  apply fs_lookup_filter; exact E.
Qed.

Lemma process_flow_error (str_other : json -> list N) ref ok brand gt gi d log e :
  flow str_other brand gt gi [] = (log, inl e) ->
  process_single_image str_other ref ok brand gt gi d =
  (if ok then log else [], d, if ok then inl e else inl ValueError).
Proof.
  intros H. unfold process_single_image.
  destruct ok; cbv beta iota delta [negb]; [rewrite H|]; reflexivity.
Qed.

End FlowFacts.

Module GateFacts.
Import Gate.

Lemma filter_set_nth {A : Type} (f : A -> bool) (l : list A) (i : nat) (x y : A) :
  nth_error l i = Some x ->
  List.length (filter f (set_nth i y l)) + (if f x then 1 else 0) =
  List.length (filter f l) + (if f y then 1 else 0).
Proof.
  revert i. induction l as [|a l IH]; intros [|i] H; cbn in H; try discriminate.
  - injection H as ->. cbn. destruct (f x), (f y); cbn; lia.
  - specialize (IH i H). cbn. destruct (f a); cbn; lia.
Qed.

Lemma filter_repeat_queued n :
  List.length (filter is_in_flight (repeat Queued n)) = 0.
Proof. induction n; cbn; auto. Qed.

Lemma step_balance g g' :
  step g g' -> value g + in_flight g = 3 -> value g' + in_flight g' = 3.
Proof.
  unfold in_flight.
  intros Hs; destruct Hs as [g i Hv Hi | g i k Hi | g i k Hi]; cbn.
  - pose proof (filter_set_nth is_in_flight _ _ _ (InFlight 0) Hi) as Hc; cbn in Hc; lia.
  - pose proof (filter_set_nth is_in_flight _ _ _ (InFlight (S k)) Hi) as Hc; cbn in Hc; lia.
  - pose proof (filter_set_nth is_in_flight _ _ _ Done Hi) as Hc; cbn in Hc; lia.
Qed.

Lemma steps_balance g g' :
  clos_refl_trans_1n gate step g g' -> value g + in_flight g = 3 -> value g' + in_flight g' = 3.
Proof.
  induction 1 as [g | g g1 g' Hs _ IH]; [auto|].
  intros H; apply IH, (step_balance g g1 Hs H).
Qed.

Lemma reachable_balance n g : reachable n g -> value g + in_flight g = 3.
Proof.
  intros H. apply (steps_balance _ _ H). unfold in_flight, initial; cbn.
  rewrite filter_repeat_queued; reflexivity.
Qed.

(** With three runs in flight no queued run is admitted. *)
Lemma full_no_admission g g' :
  value g + in_flight g = 3 -> in_flight g = 3 -> step g g' ->
  queued g' = queued g /\ in_flight g' <= 3.
Proof.
  unfold queued, in_flight.
  intros Hb Hf Hs; destruct Hs as [g i Hv Hi | g i k Hi | g i k Hi]; cbn in *.
  - lia.
  - pose proof (filter_set_nth is_queued _ _ _ (InFlight (S k)) Hi) as Hq.
    pose proof (filter_set_nth is_in_flight _ _ _ (InFlight (S k)) Hi) as Hc.
    cbn in Hq, Hc; lia.
  - pose proof (filter_set_nth is_queued _ _ _ Done Hi) as Hq.
    pose proof (filter_set_nth is_in_flight _ _ _ Done Hi) as Hc.
    cbn in Hq, Hc; lia.
Qed.

End GateFacts.

Module FenceFacts.
Import TextFacts Extract ExtractFacts Json JsonFacts.

Lemma sapp_nil_l (s : string) : EmptyString ++ s = s.
Proof. reflexivity. Qed.

Lemma prefix_app_mono (p s t : string) : prefix p s = true -> prefix p (s ++ t) = true.
Proof.
  intros H. rewrite prefix_app_long; [exact H|]. apply prefix_length, H.
Qed.

Lemma contains_app_r (pat a b : string) :
  contains pat (a ++ b) = false -> contains pat a = false.
Proof.
  induction a as [|x a IH]; intros H.
  - destruct pat as [|y q]; [destruct b; cbn in H; discriminate | reflexivity].
  - cbn [append contains] in H |- *. apply orb_false_iff in H as [H1 H2].
    destruct (prefix pat (String x a)) eqn:E.
    + change (String x (a ++ b)) with (String x a ++ b) in H1.
      rewrite (prefix_app_mono pat (String x a) b E) in H1; discriminate.
    + rewrite (IH H2); reflexivity.
Qed.

Lemma forallb_string_app (f : ascii -> bool) (a b : string) :
  forallb f (list_ascii_of_string (a ++ b))
  = forallb f (list_ascii_of_string a) && forallb f (list_ascii_of_string b).
Proof.
  induction a as [|x a IH]; [reflexivity|].
  cbn. rewrite IH. apply andb_assoc.
Qed.

Lemma lstrip_core (p y : string) (c : ascii) :
  starts_nonspace (p ++ String c EmptyString) = true ->
  lstrip (p ++ String c EmptyString ++ y) = p ++ String c EmptyString ++ y.
Proof.
  destruct p as [|a p]; cbn; intros H; apply negb_true_iff in H; rewrite H; reflexivity.
Qed.

Lemma last_ok_parts (c : ascii) :
  last_ok c = true -> py_isspace c = false /\ Ascii.eqb c "`" = false.
Proof.
  unfold last_ok. intros H. apply andb_prop in H as [H1 H2].
  apply negb_true_iff in H1, H2. auto.
Qed.

(** A JSON text without [```], bare or in a [```json] block padded with
    whitespace, goes through [extract_x] to a text that decodes to the
    same value. *)
Lemma fenced_json (J ws1 ws2 : string) (v : json) :
  json_loads J = Some v -> contains fence J = false ->
  forallb py_isspace (list_ascii_of_string ws1) = true ->
  forallb py_isspace (list_ascii_of_string ws2) = true ->
  json_loads (extract_x J "json") = Some v /\
  json_loads (extract_x (fence ++ "json" ++ ws1 ++ J ++ ws2 ++ fence) "json") = Some v.
Proof.
  intros HJ Hf H1 H2. split; [rewrite extract_no_fence; assumption|].
  destruct (json_core J v HJ) as (lws & p & c & r & EJ & Hl & Hr & Hc & Hs & Hcore).
  apply last_ok_parts in Hc as [Hc1 Hc2].
  pose proof (all_ws_py _ Hl) as Hl'. pose proof (all_ws_py _ Hr) as Hr'.
  assert (Hcf : contains fence (p ++ String c EmptyString) = false).
  { rewrite EJ in Hf. apply contains_app_l in Hf. exact (contains_app_r _ _ _ Hf). }
  set (core := p ++ String c EmptyString) in *.
  set (body := ws1 ++ (lws ++ core ++ r) ++ ws2).
  assert (Hn : nowhere_before fence body (fence ++ EmptyString)).
  { unfold body. apply nowhere_before_app. split; [apply nowhere_fence_space, H1|].
    apply nowhere_before_app. split; [|apply nowhere_fence_space, H2].
    apply nowhere_before_app. split; [apply nowhere_fence_space, Hl'|].
    apply nowhere_before_app. split; [|apply nowhere_fence_space, Hr'].
    apply nowhere_fence_last; assumption. }
  pose proof (extract_fenced "json" EmptyString body EmptyString I Hn) as Hx.
  rewrite sapp_nil_l, sapp_nil_r in Hx. unfold body in Hx.
  rewrite EJ. repeat rewrite sapp_assoc in Hx. repeat rewrite sapp_assoc.
  rewrite Hx. unfold py_strip.
  rewrite (lstrip_app_space ws1 _ H1), (lstrip_app_space lws _ Hl').
  unfold core in *. rewrite !sapp_assoc. rewrite lstrip_core by exact Hs.
  replace (p ++ String c EmptyString ++ r ++ ws2)
    with (((p ++ String c EmptyString) ++ r) ++ ws2) by (rewrite !sapp_assoc; reflexivity).
  rewrite (rstrip_app_space _ ws2 H2).
  rewrite (rstrip_app_space _ r Hr'), (rstrip_last p c Hc1).
  exact Hcore.
Qed.

End FenceFacts.

Module BatchFacts.
Import Json Py Api Flow Batch Examples FlowFacts.

Lemma process_ok (str_other : json -> list N) brand (e : ref_env) ref d :
  task_ok str_other brand e ->
  exists log b u,
    process_single_image str_other ref (image_ok e) brand (gen_text e) (gen_image e) d =
    (log, fs_write (output_name ref) b (fs_write (output_name ref) [] d), inr u).
Proof.
  intros [Hi (log & b & u & Hf)]. exists log, b, u.
  unfold process_single_image. rewrite Hi, Hf. reflexivity.
Qed.

(** A batch of runs that all succeed: one usage record per run, and the
    only files touched are the runs' outputs, each of them written. *)
Lemma gather_ok (str_other : json -> list N) (env : string -> ref_env) brand ps :
  (forall p, In p ps -> task_ok str_other brand (env p)) ->
  forall d, exists d' us,
    gather str_other env brand d ps = (d', inr us) /\
    List.length us = List.length ps /\
    (forall path, fs_lookup path d' <> fs_lookup path d -> In path (map output_name ps)) /\
    (forall p, In p ps -> exists b, fs_lookup (output_name p) d' = Some b).
Proof.
  induction ps as [|p ps IH]; intros Hok d.
  - exists d, []. repeat split; [intros path H; congruence | intros q []].
  - destruct (process_ok str_other brand (env p) p d (Hok p (or_introl eq_refl)))
      as (log & b & u & Hp).
    set (d1 := fs_write (output_name p) b (fs_write (output_name p) [] d)) in Hp.
    destruct (IH (fun q Hq => Hok q (or_intror Hq)) d1) as (d' & us & Hg & Hl & Hc & Hw).
    exists d', (u :: us). cbn [gather]. rewrite Hp, Hg.
    assert (Hd1 : forall path, fs_lookup path d1 =
              if String.eqb (output_name p) path then Some b else fs_lookup path d).
    { intros path. unfold d1. rewrite !fs_lookup_write.
      destruct (String.eqb (output_name p) path); reflexivity. }
    repeat split.
    + cbn. rewrite Hl. reflexivity.
    + intros path Hne. cbn.
      destruct (String.eqb (output_name p) path) eqn:E.
      * left. apply String.eqb_eq, E.
      * right. apply Hc. rewrite Hd1, E. exact Hne.
    + intros q [<- | Hq]; [|exact (Hw q Hq)].
      assert (dec : forall x y : option bytes, {x = y} + {x <> y}).
      { decide equality. apply list_eq_dec, Byte.byte_eq_dec. }
      destruct (dec (fs_lookup (output_name p) d') (fs_lookup (output_name p) d1))
        as [Heq | Hne].
      * exists b. rewrite Heq, Hd1, String.eqb_refl. reflexivity.
      * apply Hc, in_map_iff in Hne as (q' & Hq' & Hin).
        destruct (Hw q' Hin) as [b' Hb']. exists b'. rewrite <- Hq'. exact Hb'.
Qed.

End BatchFacts.

Module MoreFacts.
Import Json Py Api Templates Flow Batch Front Examples FormatFacts FlowFacts.

(** A run whose render call answered without an image ends in [None]. *)
Lemma flow_render_no_image (str_other : json -> list N) brand gt gi log res p1 r1 u1 :
  flow str_other brand gt gi [] = (log, res) ->
  In (RenderCall p1) log -> gi p1 = inr r1 -> gemini_image_result r1 = inr (None, u1) ->
  exists u, res = inr (None, u).
Proof.
  intros Hf Hin Hgi Hr. rewrite flow_unfold in Hf.
  destruct (py_format (codes job_json_planner) [brand]) as [e|p0];
    [injection Hf as <- <-; destruct Hin|].
  destruct (gt p0) as [e|r0];
    [injection Hf as <- <-; destruct Hin as [H|[]]; discriminate|].
  destruct (parse_job (text r0)) as [e|job];
    [injection Hf as <- <-; destruct Hin as [H|[]]; discriminate|].
  destruct (getitem job "text_swap") as [e|a];
    [injection Hf as <- <-; destruct Hin as [H|[]]; discriminate|].
  destruct (getitem job "product_swap") as [e|b];
    [injection Hf as <- <-; destruct Hin as [H|[]]; discriminate|].
  destruct (getitem job "edits") as [e|c];
    [injection Hf as <- <-; destruct Hin as [H|[]]; discriminate|].
  destruct (py_format (codes job_unified) _) as [e|p1'];
    [injection Hf as <- <-; destruct Hin as [H|[]]; discriminate|].
  assert (Hlog : log = [PlanCall p0; RenderCall p1']).
  { destruct (gi p1') as [e|r1']; [|destruct (gemini_image_result r1') as [e|[o u]]];
      injection Hf as <- _; reflexivity. }
  assert (Hp : p1' = p1).
  { rewrite Hlog in Hin. destruct Hin as [H|[H|[]]]; [discriminate|injection H; auto]. }
  subst p1'. rewrite Hgi in Hf. rewrite Hr in Hf.
  injection Hf as _ <-. eexists; reflexivity.
Qed.

Lemma sum_field_acc (f : usage_dict -> Z) (us : list usage_dict) (a : Z) :
  fold_left (fun acc u => (acc + f u)%Z) us a
  = (a + fold_left (fun acc u => (acc + f u)%Z) us 0)%Z.
Proof.
  revert a. induction us as [|u us IH]; intros a; cbn [fold_left]; [lia|].
  rewrite (IH (a + f u)%Z), (IH (0 + f u)%Z). lia.
Qed.

Lemma sum_field_cons (f : usage_dict -> Z) (u : usage_dict) (us : list usage_dict) :
  sum_field f (u :: us) = (f u + sum_field f us)%Z.
Proof. unfold sum_field. cbn. rewrite sum_field_acc. lia. Qed.

Lemma sum_field_perm (f : usage_dict -> Z) (us us' : list usage_dict) :
  Permutation us us' -> sum_field f us = sum_field f us'.
Proof.
  induction 1 as [| x l l' _ IH | x y l | l l' l'' _ IH1 _ IH2].
  - reflexivity.
  - rewrite !sum_field_cons, IH. reflexivity.
  - rewrite !sum_field_cons. lia.
  - congruence.
Qed.

Lemma sum_field_app (f : usage_dict -> Z) (us1 us2 : list usage_dict) :
  sum_field f (app us1 us2) = (sum_field f us1 + sum_field f us2)%Z.
Proof.
  induction us1 as [|u us1 IH]; [cbn [app]; change (sum_field f []) with 0%Z; lia|].
  cbn [app]. rewrite !sum_field_cons, IH. lia.
Qed.

Lemma usage_counts (r : Response) :
  input_tokens (usage_of r) = or_zero (getattr_count (prompt_attr (usage_source r))) /\
  output_tokens (usage_of r) = or_zero (getattr_count (candidates_attr (usage_source r))).
Proof.
  unfold usage_of, usage_source, prompt_count, candidates_count.
  destruct (usage_metadata r) as [| |p c]; destruct (usage r) as [| |p' c']; cbn;
    split; reflexivity.
Qed.

Lemma or_zero_count (c : count_attr) :
  or_zero (getattr_count c) = match c with CountInt z => z | _ => 0%Z end.
Proof.
  destruct c as [| |z]; cbn; try reflexivity.
  destruct (z =? 0)%Z eqn:E; [apply Z.eqb_eq in E; subst; reflexivity | reflexivity].
Qed.

Lemma image_result_with_usage (r : Response) (m1 m2 : usage_attr) :
  gemini_image_result (with_usage m1 m2 r) =
  match gemini_image_result r with
  | inl e => inl e
  | inr (b, _) => inr (b, usage_of (with_usage m1 m2 r))
  end.
Proof.
  unfold gemini_image_result. cbn [with_usage candidates].
  destruct (candidates r) as [[|c cs]|]; try reflexivity.
  destruct (content c) as [ct|]; try reflexivity.
  destruct (parts ct); reflexivity.
Qed.

End MoreFacts.

(* ================================================================== *)
(** * The claims *)

Module Claims.
Import TextFacts Extract ExtractFacts Json JsonFacts FenceFacts Py Api Templates Paths.
Import Flow Batch Gate Front Examples FormatFacts FlowFacts GateFacts BatchFacts MoreFacts.

(** C1.  A batch whose references directory holds exactly 5 images, all
    of whose runs succeed, does not give 5 outputs: [main] runs
    [ref_image_paths[3:]], so only the last two references are
    processed, only their [<stem>_new_1_gen.png] files are written, and
    the printed count is 2. *)
Theorem batch_of_five_runs_two (str_other : json -> list N) (env : string -> ref_env)
    (brand : list N) (entries : list string) (d : fs) :
  List.length (ref_image_paths entries) = 5 ->
  (forall p, In p (ref_image_paths entries) -> task_ok str_other brand (env p)) ->
  exists d' st,
    main str_other env brand true entries d = (d', inr (Some st)) /\
    count st = 2 /\
    (forall path, fs_lookup path d' <> fs_lookup path d ->
       In path (map output_name (skipn 3 (ref_image_paths entries)))) /\
    (forall p, In p (skipn 3 (ref_image_paths entries)) ->
       exists b, fs_lookup (output_name p) d' = Some b).
Proof.
  intros Hlen Hok. unfold main. cbv beta iota delta [negb].
  assert (Hok' : forall p, In p (skipn 3 (ref_image_paths entries)) ->
                 task_ok str_other brand (env p)).
  { intros p Hp. apply Hok. rewrite <- (firstn_skipn 3 (ref_image_paths entries)).
    apply in_or_app. right. exact Hp. }
  assert (Hlen2 : List.length (skipn 3 (ref_image_paths entries)) = 2).
  { rewrite length_skipn, Hlen. reflexivity. }
  destruct (gather_ok str_other env brand _ Hok' d) as (d' & us & Hg & Hl & Hc & Hw).
  rewrite Hg. rewrite Hlen2 in Hl.
  destruct us as [|u1 [|u2 [|u3 us]]]; cbn in Hl; try discriminate.
  exists d', {| count := 2; total_input := sum_field input_tokens [u1; u2];
                total_output := sum_field output_tokens [u1; u2] |}.
  repeat split; assumption.
Qed.

(** Witness of C1: five images and a text file, every run answered. *)
Lemma batch_of_five_runs_two_witness :
  List.length (ref_image_paths five_refs) = 5 /\
  (forall p, In p (ref_image_paths five_refs) -> task_ok no_str [] good_env) /\
  exists d' st,
    main no_str (fun _ => good_env) [] true five_refs [] = (d', inr (Some st)) /\
    count st = 2.
Proof.
  assert (Hok : forall p, In p (ref_image_paths five_refs) -> task_ok no_str [] good_env).
  { intros p _. split; [reflexivity|].
    exists (fst (flow no_str [] (gen_text good_env) (gen_image good_env) [])),
      [x89; x50; x4e; x47], {| input_tokens := 13; output_tokens := 12 |}.
    vm_compute. reflexivity. }
  split; [vm_compute; reflexivity|]. split; [exact Hok|].
  destruct (batch_of_five_runs_two no_str (fun _ => good_env) [] five_refs []
              ltac:(vm_compute; reflexivity) Hok) as (d' & st & H1 & H2 & _).
  exists d', st. split; assumption.
Defined.

(** C3.  Counterexample: a three-key plan whose [text_swap] value holds
    a [```json ...```] block decodes as it stands, but [extract_x] cuts
    the block out of the string value and the decoding fails. *)
Lemma fenced_value_plan_breaks :
  json_loads fenced_value_plan = Some fenced_value_value /\
  getitem fenced_value_value "text_swap" = inr (JStr (codes "```json a```")) /\
  extract_x fenced_value_plan "json" = "a" /\
  parse_job (Some fenced_value_plan) = inl JSONDecodeError.
Proof. vm_compute. repeat split. Qed.

(** C3.  A JSON text without [```] decodes through [extract_x] and
    [json.loads] to the same value as [json.loads] of the text itself,
    bare and inside [```json] ... [```] with blank padding on both sides. *)
Theorem json_plan_fenced_or_bare (J ws1 ws2 : string) (v : json) :
  json_loads J = Some v -> contains fence J = false ->
  forallb py_isspace (list_ascii_of_string ws1) = true ->
  forallb py_isspace (list_ascii_of_string ws2) = true ->
  parse_job (Some J) = inr v /\
  parse_job (Some (fence ++ "json" ++ ws1 ++ J ++ ws2 ++ fence)) = inr v.
Proof.
  intros HJ Hf H1 H2.
  destruct (fenced_json J ws1 ws2 v HJ Hf H1 H2) as [A B].
  unfold parse_job. rewrite A, B. split; reflexivity.
Qed.

(** Witness of C3: the plan of scenario A, on lines of its own. *)
Lemma json_plan_fenced_or_bare_witness :
  json_loads plan_json = Some plan_value /\ contains fence plan_json = false /\
  parse_job (Some plan_json) = inr plan_value /\
  parse_job (Some (fence ++ "json" ++ nl ++ plan_json ++ nl ++ fence)) = inr plan_value.
Proof.
  assert (H : json_loads plan_json = Some plan_value) by (vm_compute; reflexivity).
  assert (Hf : contains fence plan_json = false) by (vm_compute; reflexivity).
  split; [exact H|]. split; [exact Hf|].
  exact (json_plan_fenced_or_bare plan_json nl nl plan_value H Hf
           ltac:(vm_compute; reflexivity) ltac:(vm_compute; reflexivity)).
Defined.

(** C4.  Counterexample: a reply with a [```jsonc] block and no [json]
    block is not returned unchanged: the opening [```json] matches the
    start of [```jsonc], and the [c] becomes part of the result. *)
Lemma jsonc_reply_not_identity :
  has_fenced_block jsonc_reply "json" = false /\
  extract_x jsonc_reply "json" = "c" ++ nl ++ "{}" /\
  extract_x jsonc_reply "json" <> jsonc_reply.
Proof.
  split; [vm_compute; reflexivity|]. split; [vm_compute; reflexivity|].
  intros H. vm_compute in H. discriminate H.
Qed.

(** C4.  For a tag without regex metacharacters, [extract_x] returns its
    input when the pattern [```tag\s*(.*?)```] matches nowhere (in
    particular when there is no [```] at all), and otherwise the
    stripped text between the first [```tag] and the first [```] after
    it; a [```tag] that is only the start of a longer tag counts. *)
Theorem extract_x_contract (tag : string) :
  regex_literal tag = true ->
  (forall s, search (fence ++ tag) s = None -> extract_x s tag = s) /\
  (forall s, contains fence s = false -> extract_x s tag = s) /\
  (forall pre body post,
     nowhere_before (fence ++ tag) pre (fence ++ tag ++ body ++ fence ++ post) ->
     nowhere_before fence body (fence ++ post) ->
     extract_x (pre ++ fence ++ tag ++ body ++ fence ++ post) tag = py_strip body).
Proof.
  intros _. split; [|split].
  - intros s H. unfold extract_x. rewrite H. reflexivity.
  - intros s H. apply extract_no_fence, H.
  - intros pre body post H1 H2. apply extract_fenced; assumption.
Qed.

(** Witness of C4: the tag [json] of the program. *)
Lemma extract_x_contract_witness :
  regex_literal "json" = true /\
  extract_x (fence ++ "json" ++ nl ++ "{}" ++ nl ++ fence ++ " done") "json" = "{}" /\
  extract_x "no block here" "json" = "no block here".
Proof.
  assert (Ht : regex_literal "json" = true) by reflexivity.
  destruct (extract_x_contract "json" Ht) as (_ & H2 & H3).
  split; [exact Ht|]. split.
  - refine (eq_trans (H3 EmptyString (nl ++ "{}" ++ nl) " done" I _) _);
      vm_compute; repeat split; reflexivity.
  - apply H2. vm_compute. reflexivity.
Defined.

(** C2.  Counterexample: an image response whose only part is text.
    [gemini_image_response] does not fail: it returns no bytes with the
    usage; [process_single_image] then creates the output file, empty,
    and fails with a TypeError on [f.write(None)]. *)
Lemma text_only_reply_leaves_empty_file :
  gemini_image_result text_only_reply
    = inr (None, {| input_tokens := 3; output_tokens := 7 |}) /\
  snd (flow no_str [] (fun _ => inr planner_reply) (fun _ => inr text_only_reply) [])
    = inr (None, {| input_tokens := 13; output_tokens := 12 |}) /\
  snd (fst (process_single_image no_str "a.png" true []
              (fun _ => inr planner_reply) (fun _ => inr text_only_reply) []))
    = [("a_new_1_gen.png", [])] /\
  snd (process_single_image no_str "a.png" true []
         (fun _ => inr planner_reply) (fun _ => inr text_only_reply) [])
    = inl TypeError.
Proof. vm_compute. repeat split. Qed.

(** C2.  An image response whose first candidate's parts hold no inline
    image gives [None] and the usage; [flow] then ends with [None], and
    [process_single_image] writes an empty output file and fails with a
    TypeError.  A response without candidates, content or parts makes
    the adapter raise, and a failing [flow] writes nothing. *)
Theorem image_reply_without_image_part :
  (forall r c rest ct ps,
     candidates r = Some (c :: rest) -> content c = Some ct -> parts ct = Some ps ->
     first_image ps = None -> gemini_image_result r = inr (None, usage_of r)) /\
  (forall r,
     candidates r = None \/ candidates r = Some [] \/
     (exists c rest, candidates r = Some (c :: rest) /\
        (content c = None \/ exists ct, content c = Some ct /\ parts ct = None)) ->
     exists e, gemini_image_result r = inl e) /\
  (forall (str_other : json -> list N) brand gt gi log res p1 r1 u1,
     flow str_other brand gt gi [] = (log, res) ->
     In (RenderCall p1) log -> gi p1 = inr r1 -> gemini_image_result r1 = inr (None, u1) ->
     exists u, res = inr (None, u)) /\
  (forall (str_other : json -> list N) ref brand gt gi d log u,
     flow str_other brand gt gi [] = (log, inr (None, u)) ->
     process_single_image str_other ref true brand gt gi d
       = (log, fs_write (output_name ref) [] d, inl TypeError)) /\
  (forall (str_other : json -> list N) ref brand gt gi d log e,
     flow str_other brand gt gi [] = (log, inl e) ->
     process_single_image str_other ref true brand gt gi d = (log, d, inl e)).
Proof.
  split; [|split; [|split; [|split]]].
  - intros r c rest ct ps Hc Hct Hps Hf. unfold gemini_image_result.
    rewrite Hc, Hct, Hps, Hf. reflexivity.
  - intros r [H | [H | (c & rest & H & [Hc | (ct & Hct & Hp)])]];
      unfold gemini_image_result; rewrite H; eauto.
    + rewrite Hc. eauto.
    + rewrite Hct, Hp. eauto.
  - exact flow_render_no_image.
  - intros str_other ref brand gt gi d log u H.
    unfold process_single_image. cbv beta iota delta [negb]. rewrite H. reflexivity.
  - intros str_other ref brand gt gi d log e H.
    exact (process_flow_error str_other ref true brand gt gi d log e H).
Qed.

(** C5.  A successful [flow] made the planner call and the render call,
    and each field of its usage is the sum of that field of the two
    responses' usage; the batch totals do not depend on the order or
    the grouping of the usage records. *)
Theorem flow_usage_fieldwise_sum :
  (forall (str_other : json -> list N) brand gt gi log out u,
     flow str_other brand gt gi [] = (log, inr (out, u)) ->
     exists p0 p1 r0 r1,
       log = [PlanCall p0; RenderCall p1] /\ gt p0 = inr r0 /\ gi p1 = inr r1 /\
       input_tokens u = (input_tokens (usage_of r0) + input_tokens (usage_of r1))%Z /\
       output_tokens u = (output_tokens (usage_of r0) + output_tokens (usage_of r1))%Z) /\
  (forall f us us', Permutation us us' -> sum_field f us = sum_field f us') /\
  (forall f us1 us2, sum_field f (app us1 us2) = (sum_field f us1 + sum_field f us2)%Z).
Proof.
  split; [|split].
  - intros str_other brand gt gi log out u H.
    destruct (flow_success str_other brand gt gi log out u H)
      as (p0 & p1 & r0 & r1 & job & a & b & c & Hl & _ & H0 & _ & _ & _ & _ & _ & H1 & _ & Hi & Ho).
    exists p0, p1, r0, r1. repeat split; assumption.
  - exact sum_field_perm.
  - exact sum_field_app.
Qed.

(** C6.  When the planner answered and its text does not decode, or
    decodes to an object without one of the three keys, [flow] fails
    after the planner call, before any render call, and the run writes
    no file. *)
Theorem malformed_plan_stops_before_render (str_other : json -> list N) (brand : list N)
    (gt gi : list N -> exn + Response) (r0 : Response) :
  (forall p0, py_format (codes job_json_planner) [brand] = inr p0 -> gt p0 = inr r0) ->
  ((exists e, parse_job (text r0) = inl e) \/
   (exists kvs, parse_job (text r0) = inr (JObj kvs) /\
      (lookup (codes "text_swap") kvs = None \/ lookup (codes "product_swap") kvs = None \/
       lookup (codes "edits") kvs = None))) ->
  exists p0 e,
    py_format (codes job_json_planner) [brand] = inr p0 /\
    flow str_other brand gt gi [] = ([PlanCall p0], inl e) /\
    (forall ref d, process_single_image str_other ref true brand gt gi d
                   = ([PlanCall p0], d, inl e)).
Proof.
  intros Hgt Hplan.
  destruct (planner_format brand) as [p0 Hp0].
  assert (Hr0 : gt p0 = inr r0) by (apply Hgt, Hp0).
  assert (Hf : exists e, flow str_other brand gt gi [] = ([PlanCall p0], inl e)).
  { destruct Hplan as [[e He] | (kvs & Hj & Hk)].
    - exists e. apply (flow_plan_failure str_other brand gt gi p0 r0 e Hp0 Hr0).
      left; exact He.
    - exists KeyError. apply (flow_plan_failure str_other brand gt gi p0 r0 KeyError Hp0 Hr0).
      right. exists (JObj kvs). split; [exact Hj|]. unfold getitem.
      destruct (lookup (codes "text_swap") kvs) as [a|] eqn:Ea; [|left; reflexivity].
      destruct (lookup (codes "product_swap") kvs) as [b|] eqn:Eb; [|right; left; eauto].
      destruct (lookup (codes "edits") kvs) as [c|] eqn:Ec; [|right; right; eauto].
      exfalso. destruct Hk as [Hk | [Hk | Hk]]; congruence. }
  destruct Hf as [e Hf]. exists p0, e. split; [exact Hp0|]. split; [exact Hf|].
  intros ref d. exact (process_flow_error str_other ref true brand gt gi d _ e Hf).
Qed.

(** Witness of C6: a planner that answers with prose. *)
Lemma malformed_plan_stops_before_render_witness :
  (forall p0, py_format (codes job_json_planner) [[]] = inr p0 ->
              (fun _ : list N => @inr exn Response no_json_reply) p0 = inr no_json_reply) /\
  parse_job (text no_json_reply) = inl JSONDecodeError /\
  exists p0 e,
    flow no_str [] (fun _ => inr no_json_reply) (fun _ => inr image_reply) []
    = ([PlanCall p0], inl e).
Proof.
  assert (H1 : forall p0, py_format (codes job_json_planner) [[]] = inr p0 ->
                 (fun _ : list N => @inr exn Response no_json_reply) p0 = inr no_json_reply)
    by (intros; reflexivity).
  assert (H2 : parse_job (text no_json_reply) = inl JSONDecodeError)
    by (vm_compute; reflexivity).
  split; [exact H1|]. split; [exact H2|].
  destruct (malformed_plan_stops_before_render no_str [] (fun _ => inr no_json_reply)
              (fun _ => inr image_reply) no_json_reply H1
              (or_introl (ex_intro _ JSONDecodeError H2))) as (p0 & e & _ & Hf & _).
  exists p0, e. exact Hf.
Defined.

(** C7.  In every state reachable from [n] queued runs, at most 3 runs
    are in flight, the semaphore's counter and the runs in flight add
    up to 3, and while 3 runs are in flight no step admits a queued run. *)
Theorem at_most_three_in_flight (n : nat) (g : gate) :
  reachable n g ->
  in_flight g <= 3 /\ value g + in_flight g = 3 /\
  (forall g', step g g' -> in_flight g = 3 -> queued g' = queued g /\ in_flight g' <= 3).
Proof.
  intros H. pose proof (reachable_balance n g H) as Hb.
  split; [lia|]. split; [exact Hb|].
  intros g' Hs Hf. exact (full_no_admission g g' Hb Hf Hs).
Qed.

(** Witness of C7: five queued runs, and the state after three admissions. *)
Lemma at_most_three_in_flight_witness :
  reachable 5 {| value := 0; runs := [InFlight 0; InFlight 0; InFlight 0; Queued; Queued] |} /\
  in_flight {| value := 0; runs := [InFlight 0; InFlight 0; InFlight 0; Queued; Queued] |} <= 3.
Proof.
  assert (H : reachable 5
                {| value := 0; runs := [InFlight 0; InFlight 0; InFlight 0; Queued; Queued] |}).
  { unfold reachable, initial.
    eapply rt1n_trans; [apply (step_acquire _ 0); cbn; [lia | reflexivity]|]. cbn.
    eapply rt1n_trans; [apply (step_acquire _ 1); cbn; [lia | reflexivity]|]. cbn.
    eapply rt1n_trans; [apply (step_acquire _ 2); cbn; [lia | reflexivity]|]. cbn.
    apply rt1n_refl. }
  split; [exact H|].
  exact (proj1 (at_most_three_in_flight 5 _ H)).
Defined.

(** C8 (corrected).  Both adapters read the counts of [usage_metadata]
    when the response has that attribute, else of [usage]; a missing or
    [None] count (or attribute) gives 0, an int count is taken as it is,
    so the counts are non-negative only when the response's are; and
    the usage attributes never change whether [gemini_image_response]
    fails, nor the bytes it returns. *)
Theorem usage_extraction_defaults (r : Response) :
  (prompt_attr (usage_source r) = CountAbsent \/ prompt_attr (usage_source r) = CountNone ->
   input_tokens (usage_of r) = 0%Z) /\
  (candidates_attr (usage_source r) = CountAbsent \/
   candidates_attr (usage_source r) = CountNone ->
   output_tokens (usage_of r) = 0%Z) /\
  (forall z, prompt_attr (usage_source r) = CountInt z -> input_tokens (usage_of r) = z) /\
  (forall z, candidates_attr (usage_source r) = CountInt z -> output_tokens (usage_of r) = z) /\
  (counts_nonneg (usage_source r) = true ->
   (0 <= input_tokens (usage_of r))%Z /\ (0 <= output_tokens (usage_of r))%Z) /\
  gemini_response_result r = (text r, usage_of r) /\
  (forall m1 m2,
     gemini_image_result (with_usage m1 m2 r) =
     match gemini_image_result r with
     | inl e => inl e
     | inr (b, _) => inr (b, usage_of (with_usage m1 m2 r))
     end).
Proof.
  destruct (usage_counts r) as [Hi Ho].
  rewrite !or_zero_count in Hi, Ho.
  split; [|split; [|split; [|split; [|split; [|split]]]]].
  - intros [H|H]; rewrite Hi, H; reflexivity.
  - intros [H|H]; rewrite Ho, H; reflexivity.
  - intros z H. rewrite Hi, H. reflexivity.
  - intros z H. rewrite Ho, H. reflexivity.
  - rewrite Hi, Ho. unfold counts_nonneg, prompt_attr, candidates_attr.
    destruct (usage_source r) as [| |p c]; [lia|lia|].
    intros H. apply andb_prop in H as [Hp Hc].
    destruct p as [| |zp]; destruct c as [| |zc]; cbn in *; try lia;
      repeat match goal with H : (0 <=? _)%Z = true |- _ => apply Z.leb_le in H end; lia.
  - reflexivity.
  - intros m1 m2. apply image_result_with_usage.
Qed.

(** C8.  Counterexample: a negative count in the response is passed
    through, [-5 or 0] being [-5]; both adapters return it, and the image
    call still succeeds with its bytes. *)
Lemma negative_count_passes_through :
  gemini_response_result negative_usage_reply
  = (None, {| input_tokens := (-5)%Z; output_tokens := 0%Z |}) /\
  gemini_image_result negative_usage_reply
  = inr (Some [x89; x50; x4e; x47], {| input_tokens := (-5)%Z; output_tokens := 0%Z |}) /\
  (input_tokens (usage_of negative_usage_reply) < 0)%Z.
Proof. split; [|split]; [reflexivity | reflexivity | cbn; lia]. Qed.

(** C9.  Counterexample: two plans that differ only in [text_swap]
    give the same prompt in the interactive variant, which puts the
    campaign text where the batch pipeline puts [text_swap]; the batch
    render prompts of the two plans differ. *)
Lemma interactive_ignores_text_swap :
  interactive_prompt no_str (codes "camp") (three_key_plan (codes "A") (codes "Y") (codes "Z"))
  = interactive_prompt no_str (codes "camp") (three_key_plan (codes "BB") (codes "Y") (codes "Z")) /\
  py_format (codes job_unified) [codes "A"; codes "Y"; codes "Z"]
  <> py_format (codes job_unified) [codes "BB"; codes "Y"; codes "Z"].
Proof.
  split; [vm_compute; reflexivity|].
  intros H. apply (f_equal (fun x => match x with inr l => List.length l | inl _ => O end)) in H.
  vm_compute in H. discriminate H.
Qed.

(** C9.  The batch pipeline renders with [job_unified] filled with the
    plan's [text_swap], [product_swap] and [edits], in this order; the
    interactive variant fills it with the campaign text, [product_swap]
    and [edits]. *)
Theorem render_prompt_fields :
  (forall (str_other : json -> list N) brand gt gi r0 job ts ps ed,
     (forall p0, py_format (codes job_json_planner) [brand] = inr p0 -> gt p0 = inr r0) ->
     parse_job (text r0) = inr job ->
     getitem job "text_swap" = inr (JStr ts) ->
     getitem job "product_swap" = inr (JStr ps) ->
     getitem job "edits" = inr (JStr ed) ->
     exists p0 p1,
       py_format (codes job_unified) [ts; ps; ed] = inr p1 /\
       fst (flow str_other brand gt gi []) = [PlanCall p0; RenderCall p1]) /\
  (forall (str_other : json -> list N) campaign job ps ed,
     getitem job "product_swap" = inr (JStr ps) ->
     getitem job "edits" = inr (JStr ed) ->
     exists p, interactive_prompt str_other campaign job = inr p /\
               py_format (codes job_unified) [campaign; ps; ed] = inr p).
Proof.
  split.
  - intros str_other brand gt gi r0 job ts ps ed Hgt Hj Ha Hb Hc.
    destruct (planner_format brand) as [p0 Hp0].
    destruct (unified_format ts ps ed) as [p1 Hp1].
    exists p0, p1. split; [exact Hp1|].
    rewrite flow_unfold, Hp0, (Hgt p0 Hp0), Hj, Ha, Hb, Hc.
    change (py_str str_other (JStr ts)) with ts.
    change (py_str str_other (JStr ps)) with ps.
    change (py_str str_other (JStr ed)) with ed.
    rewrite Hp1. destruct (gi p1) as [e|r1]; [reflexivity|].
    destruct (gemini_image_result r1) as [e|[o u]]; reflexivity.
  - intros str_other campaign job ps ed Hb Hc.
    destruct (unified_format campaign ps ed) as [p Hp].
    exists p. split; [|exact Hp].
    unfold interactive_prompt. rewrite Hb, Hc. exact Hp.
Qed.

(** C10.  Counterexample: a plan that decodes to a list (or a string,
    a number, a bool) makes [job.get] raise in the edit step. *)
Lemma list_plan_breaks_edit_step :
  parse_job (Some "[]") = inr (JArr []) /\
  plan_edit echo_widget (JArr []) = inl AttributeError.
Proof. vm_compute. split; reflexivity. Qed.

(** C10.  The edit step stores a plan with exactly the three keys when
    the stored plan is an object, a missing key showing as the empty
    string; a rerun on that plan keeps the three keys; [None] is left
    alone; any other decoded value makes it raise. *)
Theorem plan_edit_three_keys (ta : text_area_widget) :
  (forall kvs,
     plan_edit ta (JObj kvs) =
     inr (three_key_plan (ta "Text Swap Instructions" (get_or_empty kvs "text_swap"))
                         (ta "Product Swap Instructions" (get_or_empty kvs "product_swap"))
                         (ta "Edit Instructions" (get_or_empty kvs "edits")))) /\
  (forall a b c,
     plan_edit ta (three_key_plan a b c) =
     inr (three_key_plan (ta "Text Swap Instructions" (JStr a))
                         (ta "Product Swap Instructions" (JStr b))
                         (ta "Edit Instructions" (JStr c)))) /\
  plan_edit ta JNull = inr JNull /\
  (forall v, match v with
             | JObj _ | JNull => True
             | _ => plan_edit ta v = inl AttributeError
             end).
Proof.
  split; [|split; [|split]].
  - intros kvs. unfold plan_edit, dict_get, get_or_empty.
    destruct (lookup (codes "text_swap") kvs), (lookup (codes "product_swap") kvs),
      (lookup (codes "edits") kvs); reflexivity.
  - intros a b c. reflexivity.
  - reflexivity.
  - intros [| | | | |]; exact I || reflexivity.
Qed.

End Claims.

Module PathFacts.
Import TextFacts Paths Batch.

Lemma substring_drop (i : nat) (s : string) : String.substring 0 i s ++ drop i s = s.
Proof.
  revert i. induction s as [|c s IH]; intros [|i]; try reflexivity.
  cbn. rewrite IH. reflexivity.
Qed.

Lemma stem_suffix (name : string) : stem name ++ suffix name = name.
Proof.
  unfold stem, suffix. destruct (dot_index name) as [i|].
  - apply substring_drop.
  - apply sapp_nil_r.
Qed.

Lemma list_ascii_app (a b : string) :
  list_ascii_of_string (a ++ b) = app (list_ascii_of_string a) (list_ascii_of_string b).
Proof. induction a as [|c a IH]; cbn; [reflexivity | rewrite IH; reflexivity]. Qed.

Lemma sapp_inv_tail (a b s : string) : a ++ s = b ++ s -> a = b.
Proof.
  intros H. apply (f_equal list_ascii_of_string) in H. rewrite !list_ascii_app in H.
  apply app_inv_tail in H.
  rewrite <- (string_of_list_ascii_of_string a), <- (string_of_list_ascii_of_string b), H.
  reflexivity.
Qed.

Lemma lower_dot (c : ascii) : Ascii.eqb (py_lower_char c) "." = Ascii.eqb c ".".
Proof. destruct c as [[] [] [] [] [] [] [] []]; vm_compute; reflexivity. Qed.

Lemma lower_lower_char (c : ascii) : py_lower_char (py_lower_char c) = py_lower_char c.
Proof. destruct c as [[] [] [] [] [] [] [] []]; vm_compute; reflexivity. Qed.

Lemma lower_lower (s : string) : py_lower (py_lower s) = py_lower s.
Proof. induction s as [|c s IH]; cbn; [reflexivity|]. rewrite lower_lower_char, IH. reflexivity. Qed.

Lemma lower_length (s : string) : String.length (py_lower s) = String.length s.
Proof. induction s as [|c s IH]; cbn; congruence. Qed.

Lemma lower_rfind (s : string) : rfind "." (py_lower s) = rfind "." s.
Proof.
  induction s as [|c s IH]; [reflexivity|].
  cbn [py_lower rfind]. rewrite IH, lower_dot. reflexivity.
Qed.

Lemma lower_drop (i : nat) (s : string) : drop i (py_lower s) = py_lower (drop i s).
Proof. revert i. induction s as [|c s IH]; intros [|i]; cbn; auto. Qed.

Lemma lower_suffix (name : string) : suffix (py_lower name) = py_lower (suffix name).
Proof.
  unfold suffix, dot_index. rewrite lower_rfind, lower_length.
  destruct (rfind "." name) as [i|]; [|reflexivity].
  destruct (Nat.ltb 0 i && Nat.ltb i (String.length name - 1)); [apply lower_drop | reflexivity].
Qed.

End PathFacts.

Module FormatMore.
Import Py Shapes.

Lemma interleave_cons_first (x : N) (cs : list (list N)) (args : list (list N)) :
  cs <> [] -> interleave (cons_first x cs) args = x :: interleave cs args.
Proof.
  destruct cs as [|c cs]; [congruence|]. intros _. destruct args; reflexivity.
Qed.

Lemma chunks_nonnil (t : list N) : chunks t <> [].
Proof.
  induction t as [t IH] using
    (well_founded_induction (wf_inverse_image _ nat _ (@List.length N) lt_wf)).
  destruct t as [|c t1]; cbn; [discriminate|].
  destruct (c =? 123)%N; [|destruct (c =? 125)%N].
  - destruct t1 as [|d t2]; [discriminate|].
    destruct (d =? 123)%N; [|destruct (d =? 125)%N]; try discriminate.
    destruct (chunks t2); discriminate.
  - destruct t1 as [|d t2]; [discriminate|].
    destruct (d =? 125)%N; [destruct (chunks t2)|]; discriminate.
  - destruct (chunks t1); discriminate.
Qed.

Ltac ih_len := cbn; lia.

(** A well-formed template with [k] fields, given [k] arguments, is its
    literal chunks with the arguments spliced in, in order. *)
Lemma format_interleave (t : list N) :
  forall k args, template_fields t = Some k -> List.length args = k ->
  py_format t args = inr (interleave (chunks t) args).
Proof.
  induction t as [t IH] using
    (well_founded_induction (wf_inverse_image _ nat _ (@List.length N) lt_wf)).
  intros k args Ht Hk.
  destruct t as [|c t1].
  - cbn in Ht. injection Ht as <-. destruct args; [reflexivity | discriminate].
  - cbn [template_fields] in Ht. cbn [py_format chunks].
    destruct (c =? 123)%N.
    + destruct t1 as [|d t2]; [discriminate|].
      destruct (d =? 123)%N.
      * rewrite (IH t2 ltac:(ih_len) k args Ht Hk).
        rewrite interleave_cons_first by apply chunks_nonnil. reflexivity.
      * destruct (d =? 125)%N; [|discriminate].
        destruct (template_fields t2) as [k'|] eqn:E; [|discriminate].
        cbn in Ht. injection Ht as <-.
        destruct args as [|a args']; [discriminate|].
        cbn in Hk. injection Hk as Hk.
        rewrite (IH t2 ltac:(ih_len) k' args' E Hk). reflexivity.
    + destruct (c =? 125)%N.
      * destruct t1 as [|d t2]; [discriminate|].
        destruct (d =? 125)%N; [|discriminate].
        rewrite (IH t2 ltac:(ih_len) k args Ht Hk).
        rewrite interleave_cons_first by apply chunks_nonnil. reflexivity.
      * rewrite (IH t1 ltac:(ih_len) k args Ht Hk).
        rewrite interleave_cons_first by apply chunks_nonnil. reflexivity.
Qed.

Lemma format_too_few (t : list N) :
  forall k args, template_fields t = Some k -> List.length args < k ->
  py_format t args = inl IndexError.
Proof.
  induction t as [t IH] using
    (well_founded_induction (wf_inverse_image _ nat _ (@List.length N) lt_wf)).
  intros k args Ht Hk.
  destruct t as [|c t1].
  - cbn in Ht. injection Ht as <-. lia.
  - cbn [template_fields] in Ht. cbn [py_format].
    destruct (c =? 123)%N.
    + destruct t1 as [|d t2]; [discriminate|].
      destruct (d =? 123)%N.
      * rewrite (IH t2 ltac:(ih_len) k args Ht Hk). reflexivity.
      * destruct (d =? 125)%N; [|discriminate].
        destruct (template_fields t2) as [k'|] eqn:E; [|discriminate].
        cbn in Ht. injection Ht as <-.
        destruct args as [|a args']; [reflexivity|].
        cbn in Hk. rewrite (IH t2 ltac:(ih_len) k' args' E ltac:(lia)). reflexivity.
    + destruct (c =? 125)%N.
      * destruct t1 as [|d t2]; [discriminate|].
        destruct (d =? 125)%N; [|discriminate].
        rewrite (IH t2 ltac:(ih_len) k args Ht Hk). reflexivity.
      * rewrite (IH t1 ltac:(ih_len) k args Ht Hk). reflexivity.
Qed.

Lemma format_extra (t : list N) :
  forall k args extra, template_fields t = Some k -> k <= List.length args ->
  py_format t (app args extra) = py_format t args.
Proof.
  induction t as [t IH] using
    (well_founded_induction (wf_inverse_image _ nat _ (@List.length N) lt_wf)).
  intros k args extra Ht Hk.
  destruct t as [|c t1]; [reflexivity|].
  cbn [template_fields] in Ht. cbn [py_format].
  destruct (c =? 123)%N.
  - destruct t1 as [|d t2]; [discriminate|].
    destruct (d =? 123)%N.
    + rewrite (IH t2 ltac:(ih_len) k args extra Ht Hk). reflexivity.
    + destruct (d =? 125)%N; [|reflexivity].
      destruct (template_fields t2) as [k'|] eqn:E; [|discriminate].
      cbn in Ht. injection Ht as <-.
      destruct args as [|a args']; [cbn in Hk; lia|].
      cbn in Hk. cbn [app]. rewrite (IH t2 ltac:(ih_len) k' args' extra E ltac:(lia)).
      reflexivity.
  - destruct (c =? 125)%N.
    + destruct t1 as [|d t2]; [discriminate|].
      destruct (d =? 125)%N; [|reflexivity].
      rewrite (IH t2 ltac:(ih_len) k args extra Ht Hk). reflexivity.
    + rewrite (IH t1 ltac:(ih_len) k args extra Ht Hk). reflexivity.
Qed.

End FormatMore.

Module ExtractMore.
Import TextFacts Extract ExtractFacts FenceFacts.

Lemma fence_empty : contains fence EmptyString = false.
Proof. reflexivity. Qed.







End ExtractMore.

Module GateMore.
Import Gate Shapes GateFacts.

Lemma nth_set_nth {A : Type} (i j : nat) (x : A) (l : list A) :
  nth_error (set_nth i x l) j =
  if Nat.eqb i j then match nth_error l j with Some _ => Some x | None => None end
  else nth_error l j.
Proof.
  revert i j. induction l as [|a l IH]; intros [|i] [|j]; cbn; auto.
  - destruct (Nat.eqb i j); reflexivity.
Qed.

Lemma step_rank g g' :
  step g g' -> forall i s, nth_error (runs g) i = Some s ->
  exists s', nth_error (runs g') i = Some s' /\ rank s <= rank s'.
Proof.
  intros Hs j s Hj.
  destruct Hs as [g i Hv Hi | g i k Hi | g i k Hi]; cbn; rewrite nth_set_nth, Hj;
    destruct (Nat.eqb i j) eqn:E; eauto;
    apply Nat.eqb_eq in E; subst; rewrite Hi in Hj; injection Hj as <-; cbn;
    eexists; split; [reflexivity | | reflexivity | | reflexivity |]; cbn; lia.
Qed.

Lemma filter_witness {A : Type} (f : A -> bool) (l : list A) :
  0 < List.length (filter f l) -> exists i x, nth_error l i = Some x /\ f x = true.
Proof.
  induction l as [|a l IH]; cbn; [lia|].
  destruct (f a) eqn:E; intros H.
  - exists 0, a. auto.
  - destruct (IH H) as (i & x & Hi & Hx). exists (S i), x. auto.
Qed.

End GateMore.

Module SessionFacts.
Import TextFacts Json Py Api Templates Flow Front Session.

Lemma lstrip_empty (s : string) :
  lstrip s = EmptyString -> forallb py_isspace (list_ascii_of_string s) = true.
Proof.
  induction s as [|c s IH]; [reflexivity|].
  cbn. destruct (py_isspace c); [exact IH | discriminate].
Qed.

Lemma strip_blank (s : string) :
  String.eqb (py_strip s) EmptyString = forallb py_isspace (list_ascii_of_string s).
Proof.
  unfold py_strip. destruct (lstrip s) as [|c r] eqn:E.
  - rewrite (lstrip_empty s E). reflexivity.
  - destruct (forallb py_isspace (list_ascii_of_string s)) eqn:F.
    + rewrite (all_space_lstrip s F) in E. discriminate.
    + assert (Hc : py_isspace c = false).
      { clear F. induction s as [|x s IH]; [discriminate|].
        cbn in E. destruct (py_isspace x) eqn:Ex; [exact (IH E)|].
        injection E as -> _. exact Ex. }
      cbn [rstrip]. destruct (rstrip r); [rewrite Hc|]; reflexivity.
Qed.

End SessionFacts.

(* ================================================================== *)
(** * Further properties of the program *)

Module Extras.
Import TextFacts Extract ExtractFacts Json Py Api Templates Paths Flow Batch Gate Front.
Import Session Shapes Examples FormatFacts FlowFacts GateFacts BatchFacts MoreFacts.
Import PathFacts FormatMore ExtractMore GateMore SessionFacts.

(** [Path.stem] followed by [Path.suffix] gives back the file name. *)
Theorem stem_then_suffix (name : string) : stem name ++ suffix name = name.
Proof. apply stem_suffix. Qed.

(** Two references get the same output file exactly when their stems are
    equal, as [a.png] and [a.jpg] do: the later write replaces the other. *)
Theorem output_name_collision (a b : string) :
  (output_name a = output_name b <-> stem a = stem b) /\
  output_name "a.png" = output_name "a.jpg".
Proof.
  split; [|reflexivity]. unfold output_name. split.
  - apply sapp_inv_tail.
  - intros ->. reflexivity.
Qed.

(** Picking the reference images ignores case: a name and its
    lowercase form are both kept or both left out. *)
Theorem is_image_lowercase (name : string) : is_image (py_lower name) = is_image name.
Proof. unfold is_image. rewrite lower_suffix, lower_lower. reflexivity. Qed.

(** The planner prompt is a fixed text with the brand text spliced in
    once, verbatim: braces in the brand text are not interpreted. *)
Theorem planner_prompt_frame :
  exists c0 c1, forall b,
    py_format (codes job_json_planner) [b] = inr (app c0 (app b c1)).
Proof.
  remember (chunks (codes job_json_planner)) as cs eqn:E.
  assert (Hl : List.length cs = 2) by (subst cs; vm_compute; reflexivity).
  destruct cs as [|c0 [|c1 [|c2 cs]]]; try discriminate.
  exists c0, c1. intros b.
  rewrite (format_interleave _ 1 [b] planner_fields eq_refl), <- E. reflexivity.
Qed.

(** The render prompt is a fixed text with its three arguments spliced
    in, verbatim and in order. *)
Theorem render_prompt_frame :
  exists c0 c1 c2 c3, forall a b c,
    py_format (codes job_unified) [a; b; c]
    = inr (app c0 (app a (app c1 (app b (app c2 (app c c3)))))).
Proof.
  remember (chunks (codes job_unified)) as cs eqn:E.
  assert (Hl : List.length cs = 4) by (subst cs; vm_compute; reflexivity).
  destruct cs as [|c0 [|c1 [|c2 [|c3 [|c4 cs]]]]]; try discriminate.
  exists c0, c1, c2, c3. intros a b c.
  rewrite (format_interleave _ 3 [a; b; c] unified_fields eq_refl), <- E. reflexivity.
Qed.

(** [str.format] on a template with [k] fields raises an IndexError when
    given fewer than [k] arguments, and ignores arguments beyond [k]. *)
Theorem format_argument_count (t : list N) (k : nat) :
  template_fields t = Some k ->
  (forall args, List.length args < k -> py_format t args = inl IndexError) /\
  (forall args extra, k <= List.length args -> py_format t (app args extra) = py_format t args).
Proof.
  intros Ht. split.
  - intros args Ha. exact (format_too_few t k args Ht Ha).
  - intros args extra Ha. exact (format_extra t k args extra Ht Ha).
Qed.

(** Witness: the render template, with two and with four arguments. *)
Lemma format_argument_count_witness :
  template_fields (codes job_unified) = Some 3 /\
  py_format (codes job_unified) [[]; []] = inl IndexError /\
  py_format (codes job_unified) [[]; []; []; [65%N]] = py_format (codes job_unified) [[]; []; []].
Proof.
  destruct (format_argument_count (codes job_unified) 3 unified_fields) as [H1 H2].
  split; [exact unified_fields|]. split.
  - apply H1. cbn. lia.
  - exact (H2 [[]; []; []] [[65%N]] ltac:(cbn; lia)).
Defined.


(** A run whose [flow] ends with image bytes writes exactly these bytes
    to [<stem>_new_1_gen.png] and leaves every other file as it was. *)
Theorem process_writes_only_output (str_other : json -> list N) (ref : string) brand gt gi
    (d : fs) log b u :
  flow str_other brand gt gi [] = (log, inr (Some b, u)) ->
  exists d',
    process_single_image str_other ref true brand gt gi d = (log, d', inr u) /\
    fs_lookup (output_name ref) d' = Some b /\
    (forall path, path <> output_name ref -> fs_lookup path d' = fs_lookup path d).
Proof.
  intros H. eexists. split.
  - unfold process_single_image. cbv beta iota delta [negb]. rewrite H. reflexivity.
  - split.
    + rewrite fs_lookup_write, String.eqb_refl. reflexivity.
    + intros path Hp. rewrite !fs_lookup_write.
      destruct (String.eqb (output_name ref) path) eqn:E; [|reflexivity].
      apply String.eqb_eq in E. congruence.
Qed.

(** Witness: the runs of the examples, on the reference [a.png]. *)
Lemma process_writes_only_output_witness :
  flow no_str [] (fun _ => inr planner_reply) (fun _ => inr image_reply) []
  = (fst (flow no_str [] (fun _ => inr planner_reply) (fun _ => inr image_reply) []),
     inr (Some [x89; x50; x4e; x47], {| input_tokens := 13; output_tokens := 12 |})) /\
  exists d',
    process_single_image no_str "a.png" true [] (fun _ => inr planner_reply)
      (fun _ => inr image_reply) [] = (fst (flow no_str [] (fun _ => inr planner_reply)
                                                 (fun _ => inr image_reply) []), d',
                                        inr {| input_tokens := 13; output_tokens := 12 |}) /\
    fs_lookup "a_new_1_gen.png" d' = Some [x89; x50; x4e; x47].
Proof.
  assert (H : flow no_str [] (fun _ => inr planner_reply) (fun _ => inr image_reply) []
    = (fst (flow no_str [] (fun _ => inr planner_reply) (fun _ => inr image_reply) []),
       inr (Some [x89; x50; x4e; x47], {| input_tokens := 13; output_tokens := 12 |})))
    by (vm_compute; reflexivity).
  split; [exact H|].
  destruct (process_writes_only_output no_str "a.png" [] _ _ [] _ _ _ H) as (d' & H1 & H2 & _).
  exists d'. split; [exact H1 | exact H2].
Defined.

(** With at most three reference images [main] processes none: it makes
    no model call, writes no file and prints no statistics. *)
Theorem main_three_or_fewer (str_other : json -> list N) (env : string -> ref_env)
    (brand : list N) (entries : list string) (d : fs) :
  List.length (ref_image_paths entries) <= 3 ->
  main str_other env brand true entries d = (d, inr None).
Proof.
  intros H. unfold main. cbv beta iota delta [negb].
  rewrite (skipn_all2 _ H). reflexivity.
Qed.

(** Witness: three images and a text file. *)
Lemma main_three_or_fewer_witness :
  List.length (ref_image_paths ["a.png"; "b.gif"; "notes.txt"; "c.jpeg"]) <= 3 /\
  main no_str (fun _ => good_env) [] true ["a.png"; "b.gif"; "notes.txt"; "c.jpeg"] []
  = ([], inr None).
Proof.
  assert (H : List.length (ref_image_paths ["a.png"; "b.gif"; "notes.txt"; "c.jpeg"]) <= 3)
    by (vm_compute; lia).
  split; [exact H | exact (main_three_or_fewer _ _ _ _ [] H)].
Defined.

(** When all runs succeed, [main] processes every reference image but the
    first three: it counts [n - 3] of them, changes no file but their
    outputs, and writes each of these. *)
Theorem main_skips_first_three (str_other : json -> list N) (env : string -> ref_env)
    (brand : list N) (entries : list string) (d : fs) :
  3 < List.length (ref_image_paths entries) ->
  (forall p, In p (ref_image_paths entries) -> task_ok str_other brand (env p)) ->
  exists d' st,
    main str_other env brand true entries d = (d', inr (Some st)) /\
    count st = List.length (ref_image_paths entries) - 3 /\
    (forall path, fs_lookup path d' <> fs_lookup path d ->
       In path (map output_name (skipn 3 (ref_image_paths entries)))) /\
    (forall p, In p (skipn 3 (ref_image_paths entries)) ->
       exists b, fs_lookup (output_name p) d' = Some b).
Proof.
  intros Hlen Hok. unfold main. cbv beta iota delta [negb].
  assert (Hok' : forall p, In p (skipn 3 (ref_image_paths entries)) ->
                 task_ok str_other brand (env p)).
  { intros p Hp. apply Hok. rewrite <- (firstn_skipn 3 (ref_image_paths entries)).
    apply in_or_app. right. exact Hp. }
  destruct (gather_ok str_other env brand _ Hok' d) as (d' & us & Hg & Hl & Hc & Hw).
  rewrite Hg. rewrite length_skipn in Hl.
  destruct us as [|u us]; [cbn in Hl; lia|].
  exists d', {| count := List.length (u :: us);
                total_input := sum_field input_tokens (u :: us);
                total_output := sum_field output_tokens (u :: us) |}.
  split; [reflexivity|]. split; [cbn [count]; exact Hl | split; assumption].
Qed.

(** Witness: six images, one text file. *)
Lemma main_skips_first_three_witness :
  3 < List.length (ref_image_paths ("f.bmp" :: five_refs)) /\
  exists d' st,
    main no_str (fun _ => good_env) [] true ("f.bmp" :: five_refs) [] = (d', inr (Some st)) /\
    count st = 3.
Proof.
  assert (H : 3 < List.length (ref_image_paths ("f.bmp" :: five_refs))) by (vm_compute; lia).
  assert (Hok : forall p, In p (ref_image_paths ("f.bmp" :: five_refs)) ->
                task_ok no_str [] ((fun _ => good_env) p)).
  { intros p _. split; [reflexivity|].
    exists (fst (flow no_str [] (gen_text good_env) (gen_image good_env) [])),
      [x89; x50; x4e; x47], {| input_tokens := 13; output_tokens := 12 |}.
    vm_compute. reflexivity. }
  split; [exact H|].
  destruct (main_skips_first_three no_str (fun _ => good_env) [] _ [] H Hok)
    as (d' & st & H1 & H2 & _).
  exists d', st. split; [exact H1|]. rewrite H2. vm_compute. reflexivity.
Defined.

(** Runs only move forward: queued, then holding the semaphore, then
    done; a finished run stays finished and no run disappears. *)
Theorem runs_move_forward (g g' : gate) :
  clos_refl_trans_1n gate step g g' ->
  forall i s, nth_error (runs g) i = Some s ->
  exists s', nth_error (runs g') i = Some s' /\ rank s <= rank s'.
Proof.
  induction 1 as [g | g g1 g' Hs _ IH]; intros i s Hi.
  - exists s. auto.
  - destruct (step_rank g g1 Hs i s Hi) as (s1 & H1 & R1).
    destruct (IH i s1 H1) as (s2 & H2 & R2). exists s2. split; [exact H2 | lia].
Qed.

(** Witness: one admission from two queued runs. *)
Lemma runs_move_forward_witness :
  clos_refl_trans_1n gate step (initial 2) {| value := 2; runs := [InFlight 0; Queued] |} /\
  exists s', nth_error [InFlight 0; Queued] 0 = Some s' /\ rank Queued <= rank s'.
Proof.
  assert (H : clos_refl_trans_1n gate step (initial 2)
                {| value := 2; runs := [InFlight 0; Queued] |}).
  { eapply rt1n_trans; [apply (step_acquire _ 0); cbn; [lia | reflexivity]|]. apply rt1n_refl. }
  split; [exact H|]. exact (runs_move_forward _ _ H 0 Queued eq_refl).
Defined.

(** The semaphore never blocks for good: while a run is queued or in
    flight some step can be taken, and with fewer than three runs in
    flight any queued run can be admitted. *)
Theorem gate_progress (n : nat) (g : gate) :
  reachable n g ->
  (forall i, nth_error (runs g) i = Some Queued -> in_flight g < 3 ->
     exists g', step g g' /\ nth_error (runs g') i = Some (InFlight 0)) /\
  (forall i s, nth_error (runs g) i = Some s -> s <> Done -> exists g', step g g').
Proof.
  intros H. pose proof (reachable_balance n g H) as Hb. split.
  - intros i Hi Hf. eexists. split.
    + apply step_acquire; [lia | exact Hi].
    + cbn. rewrite nth_set_nth, Nat.eqb_refl, Hi. reflexivity.
  - intros i s Hi Hs. destruct s as [|k|]; [| |congruence].
    + destruct (Nat.eq_dec (value g) 0) as [Hv|Hv].
      * assert (Hf : 0 < in_flight g) by lia. unfold in_flight in Hf.
        destruct (filter_witness is_in_flight _ Hf) as (j & x & Hj & Hx).
        destruct x as [|k|]; try discriminate.
        eexists. exact (step_release g j k Hj).
      * eexists. apply (step_acquire g i); [lia | exact Hi].
    + eexists. exact (step_release g i k Hi).
Qed.

(** Witness: five queued runs at the start. *)
Lemma gate_progress_witness :
  reachable 5 (initial 5) /\
  exists g', step (initial 5) g' /\ nth_error (runs g') 4 = Some (InFlight 0).
Proof.
  assert (H : reachable 5 (initial 5)) by apply rt1n_refl.
  split; [exact H|].
  apply (proj1 (gate_progress 5 _ H) 4); vm_compute; [reflexivity | lia].
Defined.

(** After the edit step, building the prompt of the render step cannot
    fail, so with decodable uploads "Generate Ad Image" always reaches
    the image model. *)
Theorem edited_plan_reaches_render (ta : text_area_widget) (j j' : json)
    (str_other : json -> list N) (campaign : string) ad_ok product_ok logo gi st :
  plan_edit ta j = inr j' -> j' <> JNull ->
  uploads_decode ad_ok product_ok logo = true ->
  exists p1,
    interactive_prompt str_other (codes campaign) j' = inr p1 /\
    fst (fst (generate_image (Some ad_ok) (Some product_ok) logo campaign str_other gi
                {| job_json := j'; generated_image := generated_image st;
                   usage_stats := usage_stats st |})) = [RenderCall p1].
Proof.
  intros He Hn Hu.
  assert (Hp : exists p1, interactive_prompt str_other (codes campaign) j' = inr p1).
  { destruct j as [| | | | |kvs]; try discriminate; [injection He as <-; congruence|].
    cbn [plan_edit dict_get] in He.
    destruct (lookup (codes "text_swap") kvs); destruct (lookup (codes "product_swap") kvs);
      destruct (lookup (codes "edits") kvs); injection He as <-;
      unfold interactive_prompt; simpl getitem; cbv beta iota delta [py_str];
      apply unified_format. }
  destruct Hp as [p1 Hp]. exists p1. split; [exact Hp|].
  unfold generate_image. rewrite Hu. cbv beta iota delta [negb job_json]. rewrite Hp.
  destruct (gi p1) as [e|r]; [reflexivity|].
  destruct (gemini_image_result r) as [e|[bts u]]; reflexivity.
Qed.

(** Witness: the example plan, kept as it is. *)
Lemma edited_plan_reaches_render_witness :
  plan_edit echo_widget plan_value = inr (three_key_plan (codes "X") (codes "Y") (codes "Z")) /\
  exists p1,
    interactive_prompt no_str (codes "camp") (three_key_plan (codes "X") (codes "Y") (codes "Z"))
    = inr p1.
Proof.
  assert (H : plan_edit echo_widget plan_value
              = inr (three_key_plan (codes "X") (codes "Y") (codes "Z")))
    by (vm_compute; reflexivity).
  split; [exact H|].
  destruct (edited_plan_reaches_render echo_widget plan_value _ no_str "camp" true true None
              (fun _ => inr image_reply)
              {| job_json := JNull; generated_image := None; usage_stats := None |}
              H ltac:(discriminate) eq_refl) as (p1 & Hp & _).
  exists p1. exact Hp.
Defined.

(** "Generate JSON Plan" checks before any model call: without both
    required uploads, or with a campaign text made only of whitespace,
    or with an upload PIL cannot open, the session is left as it was. *)
Theorem generate_plan_checks :
  (forall product logo campaign gt st,
     generate_plan None product logo campaign gt st = ([], st, UploadBoth)) /\
  (forall ad logo campaign gt st,
     generate_plan ad None logo campaign gt st = ([], st, UploadBoth)) /\
  (forall a p logo campaign gt st,
     forallb py_isspace (list_ascii_of_string campaign) = true ->
     generate_plan (Some a) (Some p) logo campaign gt st = ([], st, EnterCampaign)) /\
  (forall a p logo campaign gt st,
     forallb py_isspace (list_ascii_of_string campaign) = false ->
     uploads_decode a p logo = false ->
     generate_plan (Some a) (Some p) logo campaign gt st = ([], st, Failed ImageDecodeError)).
Proof.
  split; [|split; [|split]].
  - reflexivity.
  - intros [a|] logo campaign gt st; reflexivity.
  - intros a p logo campaign gt st H. unfold generate_plan. rewrite strip_blank, H. reflexivity.
  - intros a p logo campaign gt st H Hu. unfold generate_plan. rewrite strip_blank, H, Hu.
    reflexivity.
Qed.

(** "Generate JSON Plan" is all or nothing: on any failure the session
    is unchanged and at most the planner call was made; on success the
    planner was called once with the campaign text and the session holds
    the decoded plan and the planner's usage, the generated image kept. *)
Theorem generate_plan_outcome ad pr logo (campaign : string) gt (st : session) log st' n :
  generate_plan ad pr logo campaign gt st = (log, st', n) ->
  (n <> Succeeded -> st' = st /\ List.length log <= 1) /\
  (n = Succeeded ->
   exists p0 r j,
     log = [PlanCall p0] /\
     py_format (codes job_json_planner) [codes campaign] = inr p0 /\
     gt p0 = inr r /\ parse_job (text r) = inr j /\
     st' = {| job_json := j; generated_image := generated_image st;
              usage_stats := Some (usage_of r) |}).
Proof.
  unfold generate_plan. intros H.
  destruct ad as [a|]; [|injection H as <- <- <-; split; [auto | discriminate]].
  destruct pr as [p|]; [|injection H as <- <- <-; split; [auto | discriminate]].
  destruct (String.eqb (py_strip campaign) EmptyString);
    [injection H as <- <- <-; split; [auto | discriminate]|].
  destruct (negb (uploads_decode a p logo));
    [injection H as <- <- <-; split; [auto | discriminate]|].
  destruct (py_format (codes job_json_planner) [codes campaign]) as [e|p0] eqn:E0;
    [injection H as <- <- <-; split; [auto | discriminate]|].
  destruct (gt p0) as [e|r] eqn:E1;
    [injection H as <- <- <-; split; [intros _; split; [reflexivity | cbn; lia] | discriminate]|].
  destruct (parse_job (text r)) as [e|j] eqn:E2;
    [injection H as <- <- <-; split; [intros _; split; [reflexivity | cbn; lia] | discriminate]|].
  injection H as <- <- <-. split; [congruence|].
  intros _. exists p0, r, j. auto.
Qed.

(** Witness: the example planner reply on a fresh session. *)
Lemma generate_plan_outcome_witness :
  exists log st',
    generate_plan (Some true) (Some true) None "Sneakers" (fun _ => inr planner_reply)
      {| job_json := JNull; generated_image := None; usage_stats := None |}
    = (log, st', Succeeded) /\
    job_json st' = plan_value /\
    usage_stats st' = Some {| input_tokens := 10; output_tokens := 5 |}.
Proof.
  remember (generate_plan (Some true) (Some true) None "Sneakers" (fun _ => inr planner_reply)
              {| job_json := JNull; generated_image := None; usage_stats := None |}) as res eqn:E.
  assert (Hn : snd res = Succeeded) by (subst res; vm_compute; reflexivity).
  destruct res as [[log st'] n]. cbn in Hn. subst n. symmetry in E.
  destruct (generate_plan_outcome _ _ _ _ _ _ _ _ _ E) as [_ H].
  destruct (H eq_refl) as (p0 & r & j & _ & _ & Hr & Hj & ->).
  injection Hr as <-.
  assert (Hv : j = plan_value) by (vm_compute in Hj; injection Hj as <-; reflexivity).
  subst j. exists log. eexists. split; [reflexivity|]. split; reflexivity.
Defined.

(** "Generate Ad Image" is all or nothing as well: on a failure the
    session is unchanged; on success the image call was made once and
    the session holds what it returned, which is [None] (the page then
    shows no image) when the reply has no image part. *)
Theorem generate_image_outcome ad pr logo (campaign : string) (str_other : json -> list N)
    gi (st : session) log st' n :
  generate_image ad pr logo campaign str_other gi st = (log, st', n) ->
  (n <> Succeeded -> st' = st /\ List.length log <= 1) /\
  (n = Succeeded ->
   exists p1 r,
     log = [RenderCall p1] /\
     interactive_prompt str_other (codes campaign) (job_json st) = inr p1 /\
     gi p1 = inr r /\
     exists u, gemini_image_result r = inr (generated_image st', u) /\
       st' = {| job_json := job_json st; generated_image := generated_image st';
                usage_stats := Some u |}).
Proof.
  unfold generate_image. intros H.
  destruct ad as [a|]; [|injection H as <- <- <-; split; [auto | discriminate]].
  destruct pr as [p|]; [|injection H as <- <- <-; split; [auto | discriminate]].
  destruct (negb (uploads_decode a p logo));
    [injection H as <- <- <-; split; [auto | discriminate]|].
  destruct (interactive_prompt str_other (codes campaign) (job_json st)) as [e|p1] eqn:E0;
    [injection H as <- <- <-; split; [auto | discriminate]|].
  destruct (gi p1) as [e|r] eqn:E1;
    [injection H as <- <- <-; split; [intros _; split; [reflexivity | cbn; lia] | discriminate]|].
  destruct (gemini_image_result r) as [e|[bts u]] eqn:E2;
    [injection H as <- <- <-; split; [intros _; split; [reflexivity | cbn; lia] | discriminate]|].
  injection H as <- <- <-. split; [congruence|].
  intros _. exists p1, r. repeat split; auto. exists u. auto.
Qed.

(** Witness: an image reply whose only part is text, on the example plan. *)
Lemma generate_image_outcome_witness :
  exists log st',
    generate_image (Some true) (Some true) None "camp" no_str (fun _ => inr text_only_reply)
      {| job_json := plan_value; generated_image := None; usage_stats := None |}
    = (log, st', Succeeded) /\
    generated_image st' = None.
Proof.
  remember (generate_image (Some true) (Some true) None "camp" no_str
              (fun _ => inr text_only_reply)
              {| job_json := plan_value; generated_image := None; usage_stats := None |})
    as res eqn:E.
  assert (Hn : snd res = Succeeded) by (subst res; vm_compute; reflexivity).
  destruct res as [[log st'] n]. cbn in Hn. subst n. symmetry in E.
  destruct (generate_image_outcome _ _ _ _ _ _ _ _ _ _ E) as [_ H].
  destruct (H eq_refl) as (p1 & r & _ & _ & Hr & u & Hg & _).
  injection Hr as <-. vm_compute in Hg. injection Hg as Hb _.
  exists log, st'. split; [reflexivity | symmetry; exact Hb].
Defined.

End Extras.
